(** * std::extents: the hybrid static/dynamic shape descriptor of <mdspan>

    A shallow embedding of [libcxx/include/__mdspan/extents.h]:
    [static_array], [index_sequence_scan_impl], [possibly_empty_array],
    [maybe_static_array] and [extents], together with the assertion macro of
    [libcxx/include/__assert].

    Template parameters (the index type and the pack of static extents)
    become ordinary arguments; a class instance is the value of its data
    members.  Integers are [Z] with the wrap-around of each conversion
    written out; array indices and pack positions are [nat]. *)

From Stdlib Require Import ZArith Lia.
From stdpp Require Import base numbers option list strings.

Local Open Scope Z_scope.

(** ** Integer types *)

Module IntegerTypes.

Inductive width := W8 | W16 | W32 | W64.

Definition bits (w : width) : Z :=
  match w with W8 => 8 | W16 => 16 | W32 => 32 | W64 => 64 end.

(** An integer type other than bool: signedness and width. *)
Record int_type := IntT { is_signed : bool; int_width : width }.

Definition t_char : int_type := IntT true W8.
Definition t_unsigned_char : int_type := IntT false W8.
Definition t_int : int_type := IntT true W32.
Definition t_unsigned : int_type := IntT false W32.
Definition t_long_long : int_type := IntT true W64.
Definition size_t : int_type := IntT false W64.

Definition modulus (T : int_type) : Z := 2 ^ bits (int_width T).

(** numeric_limits<T>::min() and numeric_limits<T>::max() *)
Definition numeric_limits_min (T : int_type) : Z :=
  if is_signed T then - (modulus T / 2) else 0.
Definition numeric_limits_max (T : int_type) : Z :=
  if is_signed T then modulus T / 2 - 1 else modulus T - 1.

Definition representable (T : int_type) (z : Z) : Prop :=
  numeric_limits_min T <= z <= numeric_limits_max T.

(** static_cast<T>(z), and every implicit integral conversion to T:
    the value modulo 2^bits, read back in T's range. *)
Definition static_cast (T : int_type) (z : Z) : Z :=
  let m := z mod modulus T in
  if is_signed T && (modulus T / 2 <=? m) then m - modulus T else m.

(** Integral promotion: a type narrower than int becomes int. *)
Definition promote (T : int_type) : int_type :=
  match int_width T with
  | W8 | W16 => t_int
  | _ => T
  end.

Definition width_max (a b : width) : width :=
  if bits a <? bits b then b else a.

(** The usual arithmetic conversions on two promoted operand types. *)
Definition common_type (A B : int_type) : int_type :=
  let A := promote A in
  let B := promote B in
  if Bool.eqb (is_signed A) (is_signed B) then
    IntT (is_signed A) (width_max (int_width A) (int_width B))
  else
    let U := if is_signed A then B else A in
    let S := if is_signed A then A else B in
    if bits (int_width S) <=? bits (int_width U) then U else S.

(** [a == b] for [a] of type A and [b] of type B. *)
Definition equal_to (A : int_type) (a : Z) (B : int_type) (b : Z) : bool :=
  let C := common_type A B in
  static_cast C a =? static_cast C b.

End IntegerTypes.
Export IntegerTypes.

(** std::dynamic_extent = numeric_limits<size_t>::max() *)
Definition dynamic_extent : Z := numeric_limits_max size_t.
Arguments dynamic_extent : simpl never.

(** ** The precondition facility of <__assert> *)

(** A call either returns or aborts the process with a diagnostic. *)
Inductive result (A : Type) : Type :=
| Ok (a : A)
| Abort (message : string).
Arguments Ok {A} a.
Arguments Abort {A} message.

#[global] Instance result_ret : MRet result := fun _ a => Ok a.
#[global] Instance result_bind : MBind result := fun _ _ f m =>
  match m with
  | Ok a => f a
  | Abort message => Abort message
  end.

(** _LIBCPP_ASSERT(expression, message): with assertions enabled a false
    expression reaches _LIBCPP_VERBOSE_ABORT, carrying [message]; with
    assertions disabled the macro is [((void)0)]. *)
Definition LIBCPP_ASSERT (enable_assertions expression : bool) (message : string)
  : result unit :=
  if enable_assertions
  then if expression then Ok tt else Abort message
  else Ok tt.

Definition mismatch_message : string :=
  "extents construction: mismatch of provided arguments with static extents.".
Definition access_message : string :=
  "extents access: index must be less than rank".

(** ** static_array *)

(** static_array_impl<R, T, Extents...>::value(r).  The three
    specialisations: a pack of two or more compares r with R and recurses,
    a pack of one returns its element whatever r is, the empty pack (R = 0)
    returns T(). *)
Fixpoint static_array_impl_value (R : nat) (Extents : list Z) (r : nat) : Z :=
  match Extents with
  | [] => 0
  | FirstExt :: Extents' =>
      match Extents' with
      | [] => FirstExt
      | _ :: _ =>
          if (r =? R)%nat then FirstExt
          else static_array_impl_value (S R) Extents' r
      end
  end.

(** static_array<T, Values...>::get(r) *)
Definition static_array_get (Values : list Z) (r : nat) : Z :=
  static_array_impl_value 0 Values r.

(** ** index_sequence_scan_impl *)

(** index_sequence_scan_impl<R, Values...>::get(r).  A pack of two or more
    tests [r > R]; the specialisation for a pack of one tests [R > r]. *)
Fixpoint index_sequence_scan_impl_get (R : nat) (Values : list nat) (r : nat) : nat :=
  match Values with
  | [] => 0
  | FirstVal :: Values' =>
      match Values' with
      | [] => if (r <? R)%nat then FirstVal else 0
      | _ :: _ =>
          if (R <? r)%nat
          then (FirstVal + index_sequence_scan_impl_get (S R) Values' r)%nat
          else 0%nat
      end
  end.

(** ** possibly_empty_array *)

(** possibly_empty_array<T, N> is the list of its N elements.  operator[]
    of the primary template is [vals[r]]; the specialisation for N = 0
    returns a temporary T(), so a read gives zero and a write is lost. *)
Abbreviation possibly_empty_array := (list Z) (only parsing).

Definition pea_get (a : possibly_empty_array) (r : nat) : Z :=
  default 0 (a !! r).

Definition pea_set (a : possibly_empty_array) (r : nat) (v : Z) : possibly_empty_array :=
  <[r := v]> a.

(** vals[r] on a std::array or std::span argument, for r below its size. *)
Definition element (vals : list Z) (r : nat) : Z := default 0 (vals !! r).

(** ** maybe_static_array *)

(** maybe_static_array<TDynamic, TStatic, dyn_tag, Values...>, as [extents]
    instantiates it: TStatic = size_t and dyn_tag = dynamic_extent.  The
    only data member is [m_dyn_vals]. *)

Section maybe_static_array.
Variable TDynamic : int_type.
Variable Values : list Z.

(** size_t(Values == dyn_tag) *)
Definition is_dyn_tag (v : Z) : nat := Nat.b2n (v =? dynamic_extent).

Definition m_size : nat := length Values.

(** ((Values == dyn_tag) + ... + 0) *)
Definition m_size_dynamic : nat :=
  foldr (fun v acc => (is_dyn_tag v + acc)%nat) 0%nat Values.

(** dyn_map_t::get(r), with
    dyn_map_t = index_sequence_scan_impl<0, size_t(Values == dyn_tag)...> *)
Definition dyn_map_t_get (r : nat) : nat :=
  index_sequence_scan_impl_get 0 (map is_dyn_tag Values) r.

Definition static_value (r : nat) : Z := static_array_get Values r.

Definition value (m_dyn_vals : possibly_empty_array) (r : nat) : Z :=
  let static_val := static_array_get Values r in
  if static_val =? dynamic_extent
  then pea_get m_dyn_vals (dyn_map_t_get r)
  else static_cast TDynamic static_val.

(** A possibly_empty_array<TDynamic, N> that no initializer has touched:
    cell i holds whatever the memory held, [cells i], read as a TDynamic. *)
Definition uninitialized (N : nat) (cells : nat -> Z) : possibly_empty_array :=
  map (fun i => static_cast TDynamic (cells i)) (seq 0 N).

(** Constructors from the dynamic values only.
    Variadic, sizeof...(DynVals) == m_size_dynamic > 0:
    m_dyn_vals{static_cast<TDynamic>(vals)...} *)
Definition from_dyn_vals (vals : list Z) : possibly_empty_array :=
  map (static_cast TDynamic) vals.

(** Variadic, m_size_dynamic == 0: m_dyn_vals{}; the arguments are dropped. *)
Definition from_ignored_vals : possibly_empty_array := [].

(** std::array and std::span of N == m_size_dynamic elements:
    for (r = 0; r < N; r++) m_dyn_vals[r] = static_cast<TDynamic>(vals[r]) *)
Definition from_dyn_sequence (cells : nat -> Z) (vals : list Z) : possibly_empty_array :=
  let N := length vals in
  foldl (fun m_dyn_vals r =>
           pea_set m_dyn_vals r (static_cast TDynamic (element vals r)))
        (uninitialized m_size_dynamic cells) (seq 0 N).

(** Constructors from all values (m_size_dynamic > 0 and a count other than
    m_size_dynamic): one round of the loop over r.  The three overloads
    (scalars, std::array, std::span) differ only in where the cast to
    TDynamic is written.  The header at hand guards the comparison with
    _MDSPAN_DEBUG and assert; its later revisions spell the same check
    _LIBCPP_ASSERT with the diagnostic [mismatch_message]. *)
Definition from_all_values_step (enable_assertions : bool) (vals : list Z)
    (m_dyn_vals : possibly_empty_array) (r : nat) : result possibly_empty_array :=
  let static_val := static_array_get Values r in
  if static_val =? dynamic_extent
  then Ok (pea_set m_dyn_vals (dyn_map_t_get r) (static_cast TDynamic (element vals r)))
  else
    LIBCPP_ASSERT enable_assertions
      (static_cast TDynamic (element vals r) =? static_cast TDynamic static_val)
      mismatch_message ≫= fun _ => Ok m_dyn_vals.

Definition from_all_values (enable_assertions : bool) (cells : nat -> Z)
    (vals : list Z) : result possibly_empty_array :=
  foldl (fun acc r => acc ≫= fun m_dyn_vals =>
                      from_all_values_step enable_assertions vals m_dyn_vals r)
        (Ok (uninitialized m_size_dynamic cells)) (seq 0 m_size).

End maybe_static_array.

(** ** extents *)

(** An instance of extents<IndexType, Extents...>: the two template
    arguments and the data member [m_vals] (the [m_dyn_vals] of its
    maybe_static_array). *)
Record extents := Extents_
  { index_type : int_type;
    static_extents : list Z;
    m_vals : possibly_empty_array }.

Definition m_rank (Extents : list Z) : nat := length Extents.
Definition m_rank_dynamic (Extents : list Z) : nat := m_size_dynamic Extents.

Definition rank (e : extents) : nat := m_rank (static_extents e).
Definition rank_dynamic (e : extents) : nat := m_rank_dynamic (static_extents e).

(** extent(r) and static_extent(r).  Neither body holds an assertion: the
    index reaches static_array unchecked.  [r] is the index as the size_t
    that static_array_impl::value and index_sequence_scan_impl::get receive. *)
Definition extent (e : extents) (r : nat) : Z :=
  value (index_type e) (static_extents e) (m_vals e) r.

Definition static_extent (e : extents) (r : nat) : Z :=
  static_value (static_extents e) r.

(** What a call of an observer does in a build with or without assertions:
    it returns, there being no _LIBCPP_ASSERT to fail. *)
Definition call_extent (enable_assertions : bool) (e : extents) (r : nat) : result Z :=
  Ok (extent e r).
Definition call_static_extent (enable_assertions : bool) (e : extents) (r : nat) : result Z :=
  Ok (static_extent e r).

(** How an object is brought to life by [extents() = default].  The
    constructor is not user-provided and possibly_empty_array declares
    [T vals[N]] without an initializer: value-initialization ([E()], [E{}])
    zero-fills the array first, default-initialization ([E e;]) leaves in it
    what the memory held. *)
Inductive initialization :=
| value_initialization
| default_initialization (cells : nat -> Z).

Definition extents_default (IndexType : int_type) (Extents : list Z)
    (init : initialization) : extents :=
  Extents_ IndexType Extents
    match init with
    | value_initialization => replicate (m_rank_dynamic Extents) 0
    | default_initialization cells =>
        uninitialized IndexType (m_rank_dynamic Extents) cells
    end.

(** The three shapes of argument of the constructors from integral values:
    a pack of scalars, a std::array, a std::span of static size. *)
Inductive ctor_form := Scalars | Array | Span.

(** extents(OtherIndexTypes... dynvals), extents(const array<OtherIndexType, N>&)
    and extents(const span<OtherIndexType, N>&), on the N values [vals].

    [None]: the requires-clause N == m_rank || N == m_rank_dynamic fails
    and no constructor is viable.  Otherwise m_vals is built by the
    maybe_static_array constructor that overload resolution selects; with
    m_size_dynamic == 0 this is always one that stores and compares
    nothing, for N > 0 the variadic [requires(m_size_dynamic == 0)] one.
    The scalar form passes static_cast<index_type>(dynvals)... down. *)
Definition extents_construct (enable_assertions : bool) (IndexType : int_type)
    (Extents : list Z) (cells : nat -> Z) (form : ctor_form) (vals : list Z)
  : option (result extents) :=
  let N := length vals in
  let vals :=
    match form with
    | Scalars => map (static_cast IndexType) vals
    | Array | Span => vals
    end in
  if negb ((N =? m_rank Extents)%nat || (N =? m_rank_dynamic Extents)%nat) then None
  else Some (
    (if (m_size_dynamic Extents =? 0)%nat then Ok from_ignored_vals
     else if (N =? m_size_dynamic Extents)%nat then
       match form with
       | Scalars => Ok (from_dyn_vals IndexType vals)
       | Array | Span => Ok (from_dyn_sequence IndexType Extents cells vals)
       end
     else from_all_values IndexType Extents enable_assertions cells vals)
    ≫= fun m_vals => Ok (Extents_ IndexType Extents m_vals)).

(** The requires-clause of the converting constructor:
    sizeof...(OtherExtents) == rank() and, position by position,
    OtherExtents == dynamic_extent || Extents == dynamic_extent ||
    OtherExtents == Extents. *)
Fixpoint extents_compatible (Extents OtherExtents : list Z) : bool :=
  match Extents, OtherExtents with
  | [], [] => true
  | Ext :: Extents', Other :: OtherExtents' =>
      ((Other =? dynamic_extent) || (Ext =? dynamic_extent) || (Other =? Ext))
      && extents_compatible Extents' OtherExtents'
  | _, _ => false
  end.

(** The loop of the converting constructor over the local array [vals]:
    if (static_extent(r) == dynamic_extent)
      vals[vals_t::dyn_map_t::get(r)] = other.extent(r); *)
Definition gather_dynamic (IndexType : int_type) (Extents : list Z)
    (other : extents) (vals : possibly_empty_array) : possibly_empty_array :=
  foldl (fun vals r =>
           if static_value Extents r =? dynamic_extent
           then pea_set vals (dyn_map_t_get Extents r)
                  (static_cast IndexType (extent other r))
           else vals)
        vals (seq 0 (m_rank Extents)).

(** extents(const extents<OtherIndexType, OtherExtents...>& other).
    [None]: the requires-clause fails.  With m_rank_dynamic == 0 the body
    is empty; otherwise m_vals is assigned from a span over [vals]. *)
Definition extents_from_extents (IndexType : int_type) (Extents : list Z)
    (cells : nat -> Z) (other : extents) : option extents :=
  if extents_compatible Extents (static_extents other) then
    Some (Extents_ IndexType Extents
      (if (0 <? m_rank_dynamic Extents)%nat then
         let vals :=
           gather_dynamic IndexType Extents other
             (uninitialized IndexType (m_rank_dynamic Extents) cells) in
         from_dyn_sequence IndexType Extents cells vals
       else uninitialized IndexType (m_rank_dynamic Extents) cells))
  else None.

(** What the converting constructor does in a build with or without
    assertions: it is noexcept and holds no _LIBCPP_ASSERT. *)
Definition construct_from_extents (enable_assertions : bool) (IndexType : int_type)
    (Extents : list Z) (cells : nat -> Z) (other : extents) : option (result extents) :=
  Ok <$> extents_from_extents IndexType Extents cells other.

(** operator==(ext, ext2):
    for (r = 0; r < m_rank; r++) value &= ext.extent(r) == ext2.extent(r); *)
Definition extents_eq (ext ext2 : extents) : bool :=
  foldl (fun value r =>
           value && equal_to (index_type ext) (extent ext r)
                             (index_type ext2) (extent ext2 r))
        true (seq 0 (rank ext)).

(** The later revisions of the header compare the ranks first and cast the
    right operand:
    if constexpr (rank() != sizeof...(OtherExtents)) value = false;
    else for (...) value &= static_cast<index_type>(rhs.extent(r)) == lhs.extent(r); *)
Definition extents_eq_revised (lhs rhs : extents) : bool :=
  if negb (rank lhs =? rank rhs)%nat then false
  else
    foldl (fun value r =>
             value && (static_cast (index_type lhs) (extent rhs r) =? extent lhs r))
          true (seq 0 (rank lhs)).

(** ** Reference notions the statements are phrased with *)

(** The tag at position r of the pack. *)
Definition tag (Extents : list Z) (r : nat) : Z := default 0 (Extents !! r).

(** How many dynamic tags stand strictly before position r. *)
Definition dynamic_before (Extents : list Z) (r : nat) : nat :=
  length (filter (fun v => v = dynamic_extent) (take r Extents)).

(** The dynamic positions of the pack, left to right. *)
Definition dynamic_positions (Extents : list Z) : list nat :=
  filter (fun r => tag Extents r = dynamic_extent) (seq 0 (length Extents)).

(** The value supplied for position r differs, as a TDynamic, from the static
    tag at r. *)
Definition mismatch_at (TDynamic : int_type) (Extents vals : list Z) (r : nat) : bool :=
  negb (tag Extents r =? dynamic_extent)
  && negb (static_cast TDynamic (element vals r) =? static_cast TDynamic (tag Extents r)).

(** A descriptor as any constructor leaves it: m_vals has m_rank_dynamic
    elements of the index type, and the tags are size_t values. *)
Definition well_formed (e : extents) : Prop :=
  length (m_vals e) = rank_dynamic e
  /\ Forall (representable (index_type e)) (m_vals e)
  /\ Forall (representable size_t) (static_extents e).

(** ** The rest of the header *)

(** [a < b] for [a] of type A and [b] of type B, after the usual arithmetic
    conversions. *)
Definition less_than (A : int_type) (a : Z) (B : int_type) (b : Z) : bool :=
  let C := common_type A B in
  static_cast C a <? static_cast C b.

(** The fold of the explicit-specifier over the two packs:
    (((Extents != dynamic_extent) && (OtherExtents == dynamic_extent)) || ...) *)
Fixpoint staticizes (Extents OtherExtents : list Z) : bool :=
  match Extents, OtherExtents with
  | Ext :: Extents', Other :: OtherExtents' =>
      (negb (Ext =? dynamic_extent) && (Other =? dynamic_extent))
      || staticizes Extents' OtherExtents'
  | _, _ => false
  end.

(** explicit(... || (numeric_limits<index_type>::max()
                     < numeric_limits<OtherIndexType>::max()))
    of the converting constructor. *)
Definition conversion_explicit (IndexType : int_type) (Extents : list Z)
    (OtherIndexType : int_type) (OtherExtents : list Z) : bool :=
  staticizes Extents OtherExtents
  || less_than IndexType (numeric_limits_max IndexType)
               OtherIndexType (numeric_limits_max OtherIndexType).

(** detail::__make_dextents<IndexType, Rank, extents<IndexType, ExtentsPack...>>::type:
    Rank times a dynamic_extent is put in front of the pack. *)
Fixpoint make_dextents (Rank : nat) (ExtentsPack : list Z) : list Z :=
  match Rank with
  | O => ExtentsPack
  | S Rank' => make_dextents Rank' (dynamic_extent :: ExtentsPack)
  end.

(** dextents<IndexType, Rank>, with the default extents<IndexType> to start. *)
Definition dextents (Rank : nat) : list Z := make_dextents Rank [].

(** The converting constructor of the later revisions builds the storage by
    recursion over the dimension, __construct_vals_from_extents: one
    overload for _Idx < __rank_ with a dynamic tag (the source's extent is
    appended), one for _Idx < __rank_ with a static tag, one for
    _Idx == __rank_ && _DynCount == __rank_dynamic_, which returns
    __vals_t{static_cast<index_type>(__dynamic_values)...}.  [None]: no
    overload is viable.  [steps] bounds the recursion; __rank_ suffice. *)
Fixpoint construct_vals_from_extents (IndexType : int_type) (Extents : list Z)
    (exts : extents) (steps DynCount Idx : nat) (dynamic_values : list Z)
  : option (list Z) :=
  if (Idx <? m_rank Extents)%nat then
    match steps with
    | O => None
    | S steps' =>
        if static_value Extents Idx =? dynamic_extent
        then construct_vals_from_extents IndexType Extents exts steps'
               (S DynCount) (S Idx) (dynamic_values ++ [extent exts Idx])
        else construct_vals_from_extents IndexType Extents exts steps'
               DynCount (S Idx) dynamic_values
    end
  else if ((Idx =? m_rank Extents) && (DynCount =? m_rank_dynamic Extents))%nat then
    Some (from_dyn_vals IndexType (map (static_cast IndexType) dynamic_values))
  else None.

Definition extents_from_extents_revised (IndexType : int_type) (Extents : list Z)
    (other : extents) : option extents :=
  if extents_compatible Extents (static_extents other) then
    Extents_ IndexType Extents
      <$> construct_vals_from_extents IndexType Extents other (m_rank Extents) 0 0 []
  else None.

(** * Proofs *)

(** ** Conversions *)

(** Replaces the closed powers of two of a goal by their numerals. *)
Ltac eval_pow2 :=
  repeat match goal with
         | |- context [2 ^ ?n / 2] =>
             let v := eval vm_compute in (2 ^ n / 2) in change (2 ^ n / 2) with v
         | |- context [2 ^ ?n] =>
             let v := eval vm_compute in (2 ^ n) in change (2 ^ n) with v
         end.

Lemma modulus_cases T :
  modulus T = 2 ^ 8 \/ modulus T = 2 ^ 16 \/ modulus T = 2 ^ 32 \/ modulus T = 2 ^ 64.
Proof. destruct T as [s []]; cbv [modulus int_width bits]; auto. Qed.

Lemma modulus_even T : modulus T = 2 * (modulus T / 2) /\ 0 < modulus T / 2.
Proof. destruct (modulus_cases T) as [-> | [-> | [-> | ->]]]; split; reflexivity. Qed.

Lemma static_cast_representable T z : representable T (static_cast T z).
Proof.
  unfold representable, static_cast, numeric_limits_min, numeric_limits_max.
  destruct (modulus_even T) as [Heven Hpos].
  pose proof (Z.mod_pos_bound z (modulus T)) as Hb.
  destruct (is_signed T); cbn [andb].
  - destruct (Z.leb_spec (modulus T / 2) (z mod modulus T)); lia.
  - lia.
Qed.

Lemma static_cast_id T z : representable T z -> static_cast T z = z.
Proof.
  unfold representable, static_cast, numeric_limits_min, numeric_limits_max.
  destruct (modulus_even T) as [Heven Hpos].
  destruct (is_signed T); cbn [andb]; intros Hz.
  - destruct (Z.le_gt_cases 0 z).
    + rewrite Z.mod_small by lia.
      destruct (Z.leb_spec (modulus T / 2) z); lia.
    + replace (z mod modulus T) with (z + modulus T).
      * destruct (Z.leb_spec (modulus T / 2) (z + modulus T)); lia.
      * apply Z.mod_unique with (q := -1); lia.
  - apply Z.mod_small. lia.
Qed.

Lemma static_cast_idem T z : static_cast T (static_cast T z) = static_cast T z.
Proof. apply static_cast_id, static_cast_representable. Qed.

Lemma common_type_same T : common_type T T = promote T.
Proof. destruct T as [[] []]; reflexivity. Qed.

Lemma representable_promote T z : representable T z -> representable (promote T) z.
Proof.
  destruct T as [[] []];
    cbv [representable numeric_limits_min numeric_limits_max modulus promote
         is_signed int_width bits t_int];
    eval_pow2; lia.
Qed.

Lemma equal_to_same T a b :
  representable T a -> representable T b -> equal_to T a T b = bool_decide (a = b).
Proof.
  intros Ha Hb. unfold equal_to. rewrite common_type_same.
  rewrite !static_cast_id by (apply representable_promote; assumption).
  destruct (Z.eqb_spec a b);
    [rewrite bool_decide_eq_true_2 | rewrite bool_decide_eq_false_2]; auto.
Qed.

(** ** static_array and index_sequence_scan_impl in closed form *)

Local Open Scope nat_scope.

Lemma static_array_impl_value_spec Extents : forall R r,
  R <= r ->
  static_array_impl_value R Extents r
  = default 0%Z (Extents !! Nat.min (r - R) (length Extents - 1)).
Proof.
  induction Extents as [| FirstExt Extents' IH]; intros R r HR; [reflexivity |].
  destruct Extents' as [| SecondExt Extents''].
  - cbn [static_array_impl_value length]. now rewrite Nat.min_0_r.
  - change (static_array_impl_value R (FirstExt :: SecondExt :: Extents'') r)
      with (if r =? R then FirstExt
            else static_array_impl_value (S R) (SecondExt :: Extents'') r).
    destruct (Nat.eqb_spec r R) as [-> | Hne].
    + now rewrite Nat.sub_diag.
    + rewrite IH by lia.
      replace (r - R) with (S (r - S R)) by lia.
      cbn [length]. rewrite !Nat.sub_succ, !Nat.sub_0_r.
      now rewrite <- Nat.succ_min_distr.
Qed.

Lemma static_array_get_lt Values r :
  r < length Values -> static_array_get Values r = tag Values r.
Proof.
  intros Hr. unfold static_array_get, tag.
  rewrite static_array_impl_value_spec by lia.
  f_equal. f_equal. lia.
Qed.

Lemma static_array_get_ge Values r :
  length Values <= r -> static_array_get Values r = tag Values (length Values - 1).
Proof.
  intros Hr. unfold static_array_get, tag.
  rewrite static_array_impl_value_spec by lia.
  f_equal. f_equal. lia.
Qed.

Lemma index_sequence_scan_impl_get_spec Values : forall R r,
  R <= r ->
  index_sequence_scan_impl_get R Values r
  = sum_list (take (Nat.min (r - R) (length Values - 1)) Values).
Proof.
  induction Values as [| FirstVal Values' IH]; intros R r HR;
    [now rewrite take_nil |].
  destruct Values' as [| SecondVal Values''].
  - cbn [index_sequence_scan_impl_get length].
    destruct (Nat.ltb_spec r R); [lia |]. now rewrite Nat.min_0_r.
  - change (index_sequence_scan_impl_get R (FirstVal :: SecondVal :: Values'') r)
      with (if R <? r
            then FirstVal + index_sequence_scan_impl_get (S R) (SecondVal :: Values'') r
            else 0).
    destruct (Nat.ltb_spec R r) as [Hlt | Hge].
    + rewrite IH by lia.
      replace (r - R) with (S (r - S R)) by lia.
      cbn [length]. rewrite !Nat.sub_succ, !Nat.sub_0_r.
      now rewrite <- Nat.succ_min_distr.
    + replace (r - R) with 0 by lia. reflexivity.
Qed.

Lemma sum_is_dyn_tag_take Extents : forall r,
  sum_list (take r (map is_dyn_tag Extents)) = dynamic_before Extents r.
Proof.
  unfold dynamic_before.
  induction Extents as [| v Extents IH]; intros [| r]; try reflexivity.
  cbn [map take sum_list]. rewrite filter_cons, IH. unfold is_dyn_tag.
  destruct (Z.eqb_spec v dynamic_extent) as [Heq | Hne].
  - rewrite decide_True by assumption. reflexivity.
  - rewrite decide_False by assumption. reflexivity.
Qed.

Lemma m_size_dynamic_spec Extents :
  m_size_dynamic Extents = dynamic_before Extents (length Extents).
Proof.
  rewrite <- sum_is_dyn_tag_take.
  rewrite <- (length_map is_dyn_tag), firstn_all.
  unfold m_size_dynamic.
  induction Extents as [| v Extents IH]; [reflexivity |].
  cbn [foldr map sum_list]. now rewrite IH.
Qed.

Lemma dyn_map_t_get_spec Extents r :
  dyn_map_t_get Extents r = dynamic_before Extents (Nat.min r (length Extents - 1)).
Proof.
  unfold dyn_map_t_get.
  rewrite index_sequence_scan_impl_get_spec by lia.
  now rewrite length_map, Nat.sub_0_r, sum_is_dyn_tag_take.
Qed.

Lemma dyn_map_t_get_lt Extents r :
  r < length Extents -> dyn_map_t_get Extents r = dynamic_before Extents r.
Proof. intros Hr. rewrite dyn_map_t_get_spec. f_equal. lia. Qed.

(** ** Counting dynamic tags *)

Section DynamicSlots.
Variable Extents : list Z.

Abbreviation is_dynamic := (fun r : nat => tag Extents r = dynamic_extent).

Lemma dynamic_before_0 : dynamic_before Extents 0 = 0.
Proof. reflexivity. Qed.

Lemma dynamic_before_S r :
  r < length Extents ->
  dynamic_before Extents (S r)
  = dynamic_before Extents r + (if decide (is_dynamic r) then 1 else 0).
Proof.
  intros Hr. unfold dynamic_before, tag.
  destruct (lookup_lt_is_Some_2 Extents r Hr) as [v Hv].
  rewrite (take_S_r _ _ _ Hv), filter_app, length_app, Hv.
  change (default 0%Z (Some v)) with v.
  rewrite filter_cons, filter_nil.
  destruct (decide (v = dynamic_extent)); reflexivity.
Qed.

Lemma dynamic_before_ge r :
  length Extents <= r -> dynamic_before Extents r = dynamic_before Extents (length Extents).
Proof. intros Hr. unfold dynamic_before. now rewrite firstn_all, take_ge. Qed.

Lemma dynamic_before_mono r r' :
  r <= r' -> dynamic_before Extents r <= dynamic_before Extents r'.
Proof.
  induction 1 as [| r' Hle IH]; [lia |].
  destruct (Nat.lt_ge_cases r' (length Extents)) as [Hlt | Hge].
  - rewrite dynamic_before_S by assumption. lia.
  - rewrite (dynamic_before_ge (S r')), <- (dynamic_before_ge r') by lia. assumption.
Qed.

Lemma dynamic_before_strict r r' :
  r < length Extents -> is_dynamic r -> r < r' ->
  dynamic_before Extents r < dynamic_before Extents r'.
Proof.
  intros Hr Hdyn Hlt.
  pose proof (dynamic_before_mono (S r) r' Hlt) as Hmono.
  rewrite dynamic_before_S, decide_True in Hmono by assumption. lia.
Qed.

Lemma dynamic_before_lt_size r :
  r < length Extents -> is_dynamic r ->
  dynamic_before Extents r < m_size_dynamic Extents.
Proof.
  intros Hr Hdyn. rewrite m_size_dynamic_spec.
  apply dynamic_before_strict; assumption.
Qed.

Lemma dynamic_before_le_size r : dynamic_before Extents r <= m_size_dynamic Extents.
Proof.
  rewrite m_size_dynamic_spec.
  destruct (Nat.le_ge_cases r (length Extents)) as [Hle | Hge].
  - now apply dynamic_before_mono.
  - now rewrite dynamic_before_ge.
Qed.

Lemma positions_S k :
  filter is_dynamic (seq 0 (S k))
  = filter is_dynamic (seq 0 k) ++ (if decide (is_dynamic k) then [k] else []).
Proof.
  rewrite seq_S, filter_app, Nat.add_0_l, filter_cons, filter_nil.
  destruct (decide (is_dynamic k)); reflexivity.
Qed.

Lemma length_positions k :
  k <= length Extents ->
  length (filter is_dynamic (seq 0 k)) = dynamic_before Extents k.
Proof.
  induction k as [| k IH]; intros Hk; [reflexivity |].
  rewrite positions_S, length_app, IH, dynamic_before_S by lia.
  destruct (decide (is_dynamic k)); reflexivity.
Qed.

Lemma map_dynamic_before_positions k :
  k <= length Extents ->
  map (dynamic_before Extents) (filter is_dynamic (seq 0 k))
  = seq 0 (dynamic_before Extents k).
Proof.
  induction k as [| k IH]; intros Hk; [reflexivity |].
  rewrite positions_S, map_app, IH, dynamic_before_S by lia.
  destruct (decide (is_dynamic k)).
  - rewrite Nat.add_1_r, seq_S. reflexivity.
  - rewrite Nat.add_0_r. apply app_nil_r.
Qed.

Lemma length_dynamic_positions :
  length (dynamic_positions Extents) = m_size_dynamic Extents.
Proof.
  unfold dynamic_positions. rewrite length_positions, m_size_dynamic_spec; auto.
Qed.

Lemma dynamic_positions_lookup r :
  r < length Extents -> is_dynamic r ->
  dynamic_positions Extents !! dynamic_before Extents r = Some r.
Proof.
  intros Hr Hdyn. unfold dynamic_positions.
  replace (length Extents) with (S r + (length Extents - S r)) by lia.
  rewrite seq_app, filter_app, positions_S, decide_True by assumption.
  rewrite <- app_assoc, lookup_app_r; rewrite length_positions by lia; [| lia].
  now rewrite Nat.sub_diag.
Qed.

Lemma elem_of_dynamic_positions r :
  r ∈ dynamic_positions Extents <-> r < length Extents /\ is_dynamic r.
Proof.
  unfold dynamic_positions. rewrite list_elem_of_filter, elem_of_seq. intuition lia.
Qed.

End DynamicSlots.

(** ** The loops that fill m_dyn_vals *)

Lemma length_uninitialized T N cells : length (uninitialized T N cells) = N.
Proof. unfold uninitialized. now rewrite length_map, length_seq. Qed.

Lemma Forall_representable_uninitialized T N cells :
  Forall (representable T) (uninitialized T N cells).
Proof.
  unfold uninitialized. apply Forall_forall. intros z Hz.
  apply list_elem_of_In, in_map_iff in Hz as (i & <- & _).
  apply static_cast_representable.
Qed.

Lemma map_element_seq (vals : list Z) :
  map (element vals) (seq 0 (length vals)) = vals.
Proof.
  apply list_eq. intros i. rewrite list_lookup_fmap.
  destruct (Nat.lt_ge_cases i (length vals)) as [Hlt | Hge].
  - rewrite lookup_seq_lt by assumption. cbn. unfold element.
    destruct (lookup_lt_is_Some_2 vals i Hlt) as [v ->]. reflexivity.
  - rewrite lookup_seq_ge, lookup_ge_None_2 by assumption. reflexivity.
Qed.

(** Assigning cell r for r = 0, ..., k-1 in turn. *)
Lemma fill_prefix (g : nat -> Z) (a : list Z) k :
  k <= length a ->
  foldl (fun m r => pea_set m r (g r)) a (seq 0 k) = map g (seq 0 k) ++ drop k a.
Proof.
  induction k as [| k IH]; intros Hk; [reflexivity |].
  rewrite seq_S, foldl_app, map_app, IH by lia. cbn [foldl map Nat.add].
  unfold pea_set.
  rewrite insert_app_r_alt; rewrite length_map, length_seq; [| lia].
  rewrite Nat.sub_diag.
  destruct (lookup_lt_is_Some_2 a k Hk) as [v Hv].
  rewrite (drop_S _ _ _ Hv). cbn. now rewrite <- app_assoc.
Qed.

Lemma from_dyn_sequence_spec T Extents cells vals :
  length vals = m_size_dynamic Extents ->
  from_dyn_sequence T Extents cells vals = map (static_cast T) vals.
Proof.
  intros Hlen. unfold from_dyn_sequence.
  rewrite (fill_prefix (fun r => static_cast T (element vals r)));
    [| rewrite length_uninitialized; lia].
  rewrite drop_ge, app_nil_r by (rewrite length_uninitialized; lia).
  rewrite <- (map_map (element vals) (static_cast T)). now rewrite map_element_seq.
Qed.

Section Scatter.
Variable Extents : list Z.

Abbreviation is_dynamic := (fun r : nat => tag Extents r = dynamic_extent).

(** Assigning cell dyn_map_t::get(r) for the dynamic r below k in turn. *)
Lemma scatter_prefix (f : nat -> Z) (a : list Z) k :
  length a = m_size_dynamic Extents ->
  k <= length Extents ->
  foldl (fun m r =>
           if (static_array_get Extents r =? dynamic_extent)%Z
           then pea_set m (dyn_map_t_get Extents r) (f r) else m)
        a (seq 0 k)
  = map f (filter is_dynamic (seq 0 k)) ++ drop (dynamic_before Extents k) a.
Proof.
  intros Hlen. induction k as [| k IH]; intros Hk; [reflexivity |].
  rewrite positions_S, dynamic_before_S by lia.
  rewrite seq_S, foldl_app, IH by lia. cbn [foldl Nat.add].
  rewrite static_array_get_lt, dyn_map_t_get_lt by lia.
  destruct (Z.eqb_spec (tag Extents k) dynamic_extent) as [Hdyn | Hstat].
  - rewrite !decide_True by assumption. unfold pea_set.
    rewrite insert_app_r_alt; rewrite length_map, length_positions by lia; [| lia].
    rewrite Nat.sub_diag.
    pose proof (dynamic_before_lt_size Extents k Hk Hdyn) as Hslot.
    destruct (lookup_lt_is_Some_2 a (dynamic_before Extents k)) as [v Hv]; [lia |].
    replace (dynamic_before Extents k + 1) with (S (dynamic_before Extents k)) by lia.
    rewrite (drop_S _ _ _ Hv), map_app. cbn.
    now rewrite <- app_assoc.
  - rewrite !decide_False by assumption. now rewrite Nat.add_0_r, app_nil_r.
Qed.

Lemma scatter_all (f : nat -> Z) (a : list Z) :
  length a = m_size_dynamic Extents ->
  foldl (fun m r =>
           if (static_array_get Extents r =? dynamic_extent)%Z
           then pea_set m (dyn_map_t_get Extents r) (f r) else m)
        a (seq 0 (length Extents))
  = map f (dynamic_positions Extents).
Proof.
  intros Hlen. rewrite scatter_prefix by auto.
  rewrite <- m_size_dynamic_spec, drop_ge, app_nil_r by lia. reflexivity.
Qed.

End Scatter.

Lemma gather_dynamic_spec T Extents other vals :
  length vals = m_size_dynamic Extents ->
  gather_dynamic T Extents other vals
  = map (fun r => static_cast T (extent other r)) (dynamic_positions Extents).
Proof.
  intros Hlen. unfold gather_dynamic, static_value, m_rank.
  now rewrite (scatter_all Extents (fun r => static_cast T (extent other r))).
Qed.

Lemma from_all_values_prefix T Extents enable_assertions vals a0 k :
  k <= length Extents ->
  foldl (fun acc r => acc ≫= fun m =>
                      from_all_values_step T Extents enable_assertions vals m r)
        (Ok a0) (seq 0 k)
  = if enable_assertions && existsb (mismatch_at T Extents vals) (seq 0 k)
    then Abort mismatch_message
    else Ok (foldl (fun m r =>
                      if (static_array_get Extents r =? dynamic_extent)%Z
                      then pea_set m (dyn_map_t_get Extents r)
                             (static_cast T (element vals r))
                      else m)
                   a0 (seq 0 k)).
Proof.
  induction k as [| k IH]; intros Hk.
  - destruct enable_assertions; reflexivity.
  - rewrite seq_S, !foldl_app, existsb_app, IH by lia.
    cbn [foldl existsb Nat.add].
    set (earlier := existsb (mismatch_at T Extents vals) (seq 0 k)).
    unfold from_all_values_step, mismatch_at, LIBCPP_ASSERT, mbind, result_bind.
    rewrite static_array_get_lt by lia.
    destruct enable_assertions, earlier,
      (tag Extents k =? dynamic_extent)%Z,
      (static_cast T (element vals k) =? static_cast T (tag Extents k))%Z;
      reflexivity.
Qed.

Lemma from_all_values_spec T Extents enable_assertions cells vals :
  from_all_values T Extents enable_assertions cells vals
  = if enable_assertions
       && existsb (mismatch_at T Extents vals) (seq 0 (length Extents))
    then Abort mismatch_message
    else Ok (map (fun r => static_cast T (element vals r)) (dynamic_positions Extents)).
Proof.
  unfold from_all_values, m_size.
  rewrite from_all_values_prefix by lia.
  rewrite (scatter_all Extents (fun r => static_cast T (element vals r)))
    by apply length_uninitialized.
  reflexivity.
Qed.

(** ** Observers *)

Lemma static_extent_lt e r :
  r < rank e -> static_extent e r = tag (static_extents e) r.
Proof. apply static_array_get_lt. Qed.

Lemma extent_static e r :
  r < rank e -> tag (static_extents e) r <> dynamic_extent ->
  extent e r = static_cast (index_type e) (tag (static_extents e) r).
Proof.
  intros Hr Hstat. unfold extent, value.
  rewrite (static_array_get_lt _ _ Hr).
  destruct (Z.eqb_spec (tag (static_extents e) r) dynamic_extent); [contradiction | reflexivity].
Qed.

Lemma extent_dynamic e r :
  r < rank e -> tag (static_extents e) r = dynamic_extent ->
  extent e r = pea_get (m_vals e) (dynamic_before (static_extents e) r).
Proof.
  intros Hr Hdyn. unfold extent, value.
  rewrite (static_array_get_lt _ _ Hr), (dyn_map_t_get_lt _ _ Hr), Hdyn.
  now rewrite Z.eqb_refl.
Qed.

Lemma representable_0 T : representable T 0%Z.
Proof.
  destruct T as [[] []];
    cbv [representable numeric_limits_min numeric_limits_max modulus
         is_signed int_width bits];
    eval_pow2; lia.
Qed.

Lemma pea_get_representable T (a : list Z) i :
  Forall (representable T) a -> representable T (pea_get a i).
Proof.
  intros Ha. unfold pea_get.
  destruct (a !! i) as [v |] eqn:Hv; cbn.
  - eapply Forall_lookup_1; eassumption.
  - apply representable_0.
Qed.

Lemma extent_representable e r :
  well_formed e -> representable (index_type e) (extent e r).
Proof.
  intros (_ & Hvals & _). unfold extent, value.
  destruct (static_array_get (static_extents e) r =? dynamic_extent)%Z.
  - now apply pea_get_representable.
  - apply static_cast_representable.
Qed.

(** The accessors never read m_dyn_vals out of bounds, whatever the index:
    when the looked-up tag is dynamic the slot lies below m_size_dynamic. *)
Lemma value_reads_in_bounds Extents r :
  static_array_get Extents r = dynamic_extent ->
  dyn_map_t_get Extents r < m_size_dynamic Extents.
Proof.
  intros Hdyn. rewrite dyn_map_t_get_spec.
  destruct (Nat.lt_ge_cases r (length Extents)) as [Hlt | Hge].
  - rewrite static_array_get_lt in Hdyn by assumption.
    replace (Nat.min r (length Extents - 1)) with r by lia.
    now apply dynamic_before_lt_size.
  - rewrite static_array_get_ge in Hdyn by assumption.
    destruct Extents as [| v Extents']; [discriminate Hdyn |].
    replace (Nat.min r (length (v :: Extents') - 1))
      with (length (v :: Extents') - 1) by lia.
    apply dynamic_before_lt_size; [cbn; lia | assumption].
Qed.

(** ** C1 *)

(** C1.  For every descriptor D and every dimension r below rank(D): when
    static_extent(r) is not dynamic_extent, extent(r) is static_extent(r)
    cast to the index type, and static_extent(r) is the tag at r.  D ranges
    over all values of the class, so the property holds whichever
    constructor built D, and there is no operation that mutates D. *)
Theorem extent_of_static_dimension (D : extents) (r : nat) :
  r < rank D ->
  static_extent D r <> dynamic_extent ->
  extent D r = static_cast (index_type D) (static_extent D r)
  /\ static_extent D r = tag (static_extents D) r.
Proof.
  intros Hr Hstat. split; [| now apply static_extent_lt].
  rewrite static_extent_lt in * by assumption.
  now apply extent_static.
Qed.

Lemma extent_of_static_dimension_witness :
  extent (Extents_ t_int [dynamic_extent; 7%Z] [5%Z]) 1
  = static_cast t_int (static_extent (Extents_ t_int [dynamic_extent; 7%Z] [5%Z]) 1)
  /\ static_extent (Extents_ t_int [dynamic_extent; 7%Z] [5%Z]) 1
     = tag [dynamic_extent; 7%Z] 1.
Proof.
  apply (extent_of_static_dimension (Extents_ t_int [dynamic_extent; 7%Z] [5%Z]) 1).
  - cbn. lia.
  - vm_compute. discriminate.
Defined.

(** ** C10 *)

(** Below the rank, dyn_map_t::get(r) counts the dynamic tags before r. *)
Lemma dyn_map_below_rank Extents r :
  r < m_rank Extents -> dyn_map_t_get Extents r = dynamic_before Extents r.
Proof. apply dyn_map_t_get_lt. Qed.

(** At the rank, and beyond, the last element of the pack is left out: the
    specialisation for a pack of one adds its value only when [R > r]. *)
Lemma dyn_map_from_rank Extents r :
  m_rank Extents <= r ->
  dyn_map_t_get Extents r = dynamic_before Extents (m_rank Extents - 1).
Proof. intros Hr. rewrite dyn_map_t_get_spec. unfold m_rank in *. f_equal. lia. Qed.

Lemma dyn_map_at_rank_last_dynamic Extents :
  0 < m_rank Extents ->
  tag Extents (m_rank Extents - 1) = dynamic_extent ->
  S (dyn_map_t_get Extents (m_rank Extents)) = m_rank_dynamic Extents.
Proof.
  intros Hpos Hlast. rewrite dyn_map_from_rank by lia.
  unfold m_rank_dynamic, m_rank in *. rewrite m_size_dynamic_spec.
  replace (length Extents) with (S (length Extents - 1)) at 2 by lia.
  rewrite dynamic_before_S, decide_True by (assumption || lia). lia.
Qed.

(** C10.  The code at the pack (dynamic_extent), of rank 1 and rank-dynamic
    1: dyn_map_t::get(1) is 0, where the number of dynamic tags before
    position 1, and rank-dynamic, is 1. *)
Theorem dyn_map_at_rank_of_dynamic_pack :
  dyn_map_t_get [dynamic_extent] (m_rank [dynamic_extent]) = 0
  /\ dynamic_before [dynamic_extent] (m_rank [dynamic_extent]) = 1
  /\ m_rank_dynamic [dynamic_extent] = 1.
Proof. repeat split. Qed.

(** ** C7 *)

(** Past the rank the accessors answer with the last tag of the pack. *)
Lemma static_extent_past_rank e r :
  rank e <= r -> static_extent e r = tag (static_extents e) (rank e - 1).
Proof. apply static_array_get_ge. Qed.

(** C7.  The code at extents<int, dynamic_extent, 5>, of rank 2, in a build
    with assertions: extent(2) and static_extent(2) return 5, the last tag;
    no call aborts. *)
Theorem extent_past_rank_returns :
  let e := extents_default t_int [dynamic_extent; 5%Z] value_initialization in
  rank e = 2
  /\ call_extent true e 2 = Ok 5%Z
  /\ call_static_extent true e 2 = Ok 5%Z
  /\ call_extent true e 2 <> Abort access_message.
Proof. repeat split. discriminate. Qed.

(** ** C3 *)

Lemma foldl_andb {A} (p : A -> bool) (l : list A) (b : bool) :
  foldl (fun value r => value && p r) b l = b && forallb p l.
Proof.
  revert b. induction l as [| x l IH]; intros b; cbn.
  - now rewrite andb_true_r.
  - now rewrite IH, andb_assoc.
Qed.

(** operator== of the header at hand looks at the left operand's rank only. *)
Lemma extents_eq_spec ext ext2 :
  extents_eq ext ext2 = true
  <-> forall r, r < rank ext ->
        equal_to (index_type ext) (extent ext r) (index_type ext2) (extent ext2 r) = true.
Proof.
  unfold extents_eq. rewrite foldl_andb, andb_true_l, forallb_forall.
  split; intros H r Hr; apply H.
  - apply in_seq. lia.
  - apply in_seq in Hr. lia.
Qed.

(** operator== of the later revisions is the equality of the claim. *)
Lemma extents_eq_revised_spec lhs rhs :
  extents_eq_revised lhs rhs = true
  <-> rank lhs = rank rhs
      /\ forall r, r < rank lhs ->
           extent lhs r = static_cast (index_type lhs) (extent rhs r).
Proof.
  unfold extents_eq_revised.
  destruct (Nat.eqb_spec (rank lhs) (rank rhs)) as [Heq | Hne]; cbn [negb].
  - rewrite foldl_andb, andb_true_l, forallb_forall. split.
    + intros H. split; [assumption |]. intros r Hr.
      symmetry. apply Z.eqb_eq, H, in_seq. lia.
    + intros [_ H] r Hr. apply in_seq in Hr. apply Z.eqb_eq. symmetry. apply H. lia.
  - split; [discriminate | intros [Heq _]; contradiction].
Qed.

(** C3.  The code at extents<int, 5> == extents<int, 5, 7>: the ranks are 1
    and 2 and the result is true; the revised operator answers false. *)
Theorem extents_eq_across_ranks :
  let lhs := Extents_ t_int [5%Z] [] in
  let rhs := Extents_ t_int [5%Z; 7%Z] [] in
  rank lhs <> rank rhs
  /\ extents_eq lhs rhs = true
  /\ extents_eq_revised lhs rhs = false.
Proof. repeat split. discriminate. Qed.

(** ** C5 *)

Lemma pea_get_replicate n (v : Z) i : i < n -> pea_get (replicate n v) i = v.
Proof. intros Hi. unfold pea_get. now rewrite lookup_replicate_2. Qed.

(** A value-initialized descriptor has zero at its dynamic dimensions and
    the tag at the static ones. *)
Lemma extents_default_value_initialized T Extents r :
  r < m_rank Extents ->
  extent (extents_default T Extents value_initialization) r
  = if decide (tag Extents r = dynamic_extent) then 0%Z
    else static_cast T (tag Extents r).
Proof.
  intros Hr. destruct (decide (tag Extents r = dynamic_extent)) as [Hdyn | Hstat].
  - rewrite extent_dynamic by assumption. cbn [m_vals extents_default static_extents].
    apply pea_get_replicate. now apply dynamic_before_lt_size.
  - now rewrite extent_static.
Qed.

(** A default-initialized one has the tag at the static dimensions and, at
    the dynamic ones, what the memory held. *)
Lemma extents_default_default_initialized T Extents cells r :
  r < m_rank Extents ->
  extent (extents_default T Extents (default_initialization cells)) r
  = if decide (tag Extents r = dynamic_extent)
    then static_cast T (cells (dynamic_before Extents r))
    else static_cast T (tag Extents r).
Proof.
  intros Hr. destruct (decide (tag Extents r = dynamic_extent)) as [Hdyn | Hstat].
  - rewrite extent_dynamic by assumption. cbn [m_vals extents_default static_extents].
    unfold pea_get, uninitialized. rewrite list_lookup_fmap, lookup_seq_lt.
    + reflexivity.
    + now apply dynamic_before_lt_size.
  - now rewrite extent_static.
Qed.

(** C5.  The code at [std::extents<int, dynamic_extent> e;] in memory that
    held 7: the defaulted constructor initializes nothing and extent(0) is
    7, not zero; it is zero for the value-initialized [e{}]. *)
Theorem default_initialized_dynamic_extent :
  extent (extents_default t_int [dynamic_extent]
            (default_initialization (fun _ => 7%Z))) 0
  = 7%Z
  /\ extent (extents_default t_int [dynamic_extent] value_initialization) 0 = 0%Z.
Proof. split; reflexivity. Qed.

(** ** C6 *)

Lemma existsb_pointwise {A} (f g : A -> bool) (l : list A) :
  (forall a, f a = g a) -> existsb f l = existsb g l.
Proof.
  intros Hfg. induction l as [| a l IH]; [reflexivity |].
  cbn. now rewrite Hfg, IH.
Qed.

(** With at least one dynamic dimension, the construction from all rank
    values checks every static position and stores the dynamic values. *)
Lemma extents_construct_full_form enable_assertions T Extents cells form vals :
  0 < m_rank_dynamic Extents ->
  length vals = m_rank Extents ->
  m_rank Extents <> m_rank_dynamic Extents ->
  extents_construct enable_assertions T Extents cells form vals
  = Some (if enable_assertions
             && existsb (mismatch_at T Extents vals) (seq 0 (m_rank Extents))
          then Abort mismatch_message
          else Ok (Extents_ T Extents
                     (map (fun r => static_cast T (element vals r))
                          (dynamic_positions Extents)))).
Proof.
  intros Hdyn Hlen Hne. unfold extents_construct, m_rank_dynamic, m_rank in *.
  rewrite Hlen, Nat.eqb_refl. cbn [orb negb].
  destruct (Nat.eqb_spec (m_size_dynamic Extents) 0) as [H0 | _]; [lia |].
  destruct (Nat.eqb_spec (length Extents) (m_size_dynamic Extents)) as [He | _];
    [contradiction |].
  rewrite from_all_values_spec.
  assert (Hcast : forall r,
             static_cast T (element (map (static_cast T) vals) r)
             = static_cast T (element vals r)).
  { intros r. unfold element. rewrite list_lookup_fmap.
    destruct (vals !! r); cbn; [apply static_cast_idem | reflexivity]. }
  assert (Hmis : forall r,
             mismatch_at T Extents (map (static_cast T) vals) r
             = mismatch_at T Extents vals r).
  { intros r. unfold mismatch_at. now rewrite Hcast. }
  destruct form;
    rewrite ?(existsb_pointwise _ _ _ Hmis), ?(map_ext _ _ Hcast);
    destruct (enable_assertions && _); reflexivity.
Qed.

(** C6.  The code at extents<int, 5>(4) in a build with assertions: the
    supplied 4 differs from the tag 5, the variadic constructor for
    m_size_dynamic == 0 is selected, nothing is compared and the
    construction returns a descriptor whose extent(0) is 5. *)
Theorem fully_static_full_form_unchecked :
  mismatch_at t_int [5%Z] [4%Z] 0 = true
  /\ extents_construct true t_int [5%Z] (fun _ => 0%Z) Scalars [4%Z]
     = Some (Ok (Extents_ t_int [5%Z] []))
  /\ extent (Extents_ t_int [5%Z] []) 0 = 5%Z.
Proof. repeat split. Qed.

(** ** C8 *)

(** C8, refuted as stated.  Constructing extents<int, 5, dynamic_extent>
    from extents<int, dynamic_extent, dynamic_extent>(4, 9) in a build with
    assertions does not abort. *)
Lemma conversion_to_static_5_from_4_returns :
  let source := Extents_ t_int [dynamic_extent; dynamic_extent] [4%Z; 9%Z] in
  extent source 0 = 4%Z
  /\ ~ (exists message,
          construct_from_extents true t_int [5%Z; dynamic_extent] (fun _ => 0%Z) source
          = Some (Abort message)).
Proof. split; [reflexivity |]. intros [message H]. discriminate H. Qed.

(** ** Reading back what a constructor stored *)

Lemma extents_at_dynamic_positions e :
  length (m_vals e) = rank_dynamic e ->
  map (extent e) (dynamic_positions (static_extents e)) = m_vals e.
Proof.
  intros Hlen.
  transitivity (map (fun r => element (m_vals e) (dynamic_before (static_extents e) r))
                    (dynamic_positions (static_extents e))).
  - apply map_ext_in. intros r Hr.
    apply list_elem_of_In, elem_of_dynamic_positions in Hr as [Hr Hdyn].
    now apply extent_dynamic.
  - rewrite <- (map_map (dynamic_before (static_extents e)) (element (m_vals e))).
    unfold dynamic_positions. rewrite map_dynamic_before_positions by lia.
    rewrite <- m_size_dynamic_spec.
    unfold rank_dynamic, m_rank_dynamic in Hlen. rewrite <- Hlen.
    apply map_element_seq.
Qed.

Lemma extent_of_stored T Extents (f : nat -> Z) r :
  r < m_rank Extents -> tag Extents r = dynamic_extent ->
  extent (Extents_ T Extents (map f (dynamic_positions Extents))) r = f r.
Proof.
  intros Hr Hdyn. rewrite extent_dynamic by assumption.
  cbn [m_vals static_extents]. unfold pea_get.
  rewrite list_lookup_fmap, dynamic_positions_lookup by assumption. reflexivity.
Qed.

Lemma map_static_cast_id T (l : list Z) :
  Forall (representable T) l -> map (static_cast T) l = l.
Proof.
  induction 1 as [| z l Hz _ IH]; [reflexivity |].
  cbn. now rewrite static_cast_id, IH.
Qed.

Lemma filter_all {A} (P : A -> Prop) `{forall x, Decision (P x)} (l : list A) :
  length (filter P l) = length l -> filter P l = l.
Proof.
  induction l as [| x l IH]; [reflexivity |].
  rewrite filter_cons. destruct (decide (P x)) as [HP | HP]; cbn; intros Hlen.
  - f_equal. apply IH. lia.
  - pose proof (length_filter P l). lia.
Qed.

(** A pack of dynamic tags only: every position is a dynamic position. *)
Lemma dynamic_positions_all Extents :
  m_size_dynamic Extents = length Extents ->
  dynamic_positions Extents = seq 0 (length Extents).
Proof.
  intros Hall. unfold dynamic_positions. apply filter_all.
  fold (dynamic_positions Extents).
  now rewrite length_dynamic_positions, length_seq.
Qed.

Lemma element_map_seq (g : nat -> Z) n r :
  r < n -> element (map g (seq 0 n)) r = g r.
Proof.
  intros Hr. unfold element. now rewrite list_lookup_fmap, lookup_seq_lt.
Qed.

(** ** The converting constructor in closed form *)

Lemma extents_from_extents_spec T Extents cells other :
  extents_compatible Extents (static_extents other) = true ->
  extents_from_extents T Extents cells other
  = Some (Extents_ T Extents
            (map (fun r => static_cast T (extent other r))
                 (dynamic_positions Extents))).
Proof.
  intros Hok. unfold extents_from_extents, m_rank_dynamic. rewrite Hok.
  do 2 f_equal.
  destruct (Nat.ltb_spec 0 (m_size_dynamic Extents)) as [Hpos | Hzero].
  - rewrite gather_dynamic_spec by apply length_uninitialized.
    rewrite from_dyn_sequence_spec
      by now rewrite length_map, length_dynamic_positions.
    rewrite map_map. apply map_ext. intros r. apply static_cast_idem.
  - assert (H0 : m_size_dynamic Extents = 0) by lia.
    rewrite H0. symmetry. apply nil_length_inv.
    now rewrite length_map, length_dynamic_positions.
Qed.

Lemma static_cast_5 T : static_cast T 5 = 5%Z.
Proof.
  apply static_cast_id.
  destruct T as [[] []];
    cbv [representable numeric_limits_min numeric_limits_max modulus
         is_signed int_width bits];
    eval_pow2; lia.
Qed.

(** C8, amended.  Constructing extents<T, 5, dynamic_extent> from a
    descriptor the constructor accepts whose extent(0) is 4 validates
    nothing: with assertions enabled or not the construction returns, the
    new extent(0) is the tag 5 and the new extent(1) is the source's
    extent(1) converted to T. *)
Theorem conversion_to_static_is_unvalidated
    (enable_assertions : bool) (T : int_type) (cells : nat -> Z) (source : extents) :
  extents_compatible [5%Z; dynamic_extent] (static_extents source) = true ->
  extent source 0 = 4%Z ->
  exists C,
    construct_from_extents enable_assertions T [5%Z; dynamic_extent] cells source
    = Some (Ok C)
    /\ extent C 0 = 5%Z
    /\ extent C 1 = static_cast T (extent source 1).
Proof.
  intros Hok _. unfold construct_from_extents.
  rewrite extents_from_extents_spec by assumption.
  eexists. split; [reflexivity |]. split.
  - rewrite extent_static; [apply static_cast_5 | cbn; lia | discriminate].
  - now rewrite (extent_of_stored T [5%Z; dynamic_extent]) by (cbn; lia || reflexivity).
Qed.

Lemma conversion_to_static_is_unvalidated_witness :
  exists C,
    construct_from_extents true t_int [5%Z; dynamic_extent] (fun _ => 0%Z)
      (Extents_ t_int [dynamic_extent; dynamic_extent] [4%Z; 9%Z])
    = Some (Ok C)
    /\ extent C 0 = 5%Z
    /\ extent C 1
       = static_cast t_int
           (extent (Extents_ t_int [dynamic_extent; dynamic_extent] [4%Z; 9%Z]) 1).
Proof.
  apply (conversion_to_static_is_unvalidated true t_int (fun _ => 0%Z)
           (Extents_ t_int [dynamic_extent; dynamic_extent] [4%Z; 9%Z]));
    reflexivity.
Defined.

(** ** C4 *)

(** C4.  Whenever the converting constructor is viable for the source B
    (equal ranks, no pair of unequal static tags), the construction returns
    a descriptor of the destination type whose extent(r), at every dynamic
    dimension r of the destination, is B.extent(r) converted to the
    destination index type.  And extents<int, 5, 7> built from
    extents<int, dynamic_extent, 7> holding (5, 7) has extents 5 and 7. *)
Theorem converting_constructor_copies_dynamic
    (enable_assertions : bool) (T : int_type) (Extents : list Z)
    (cells : nat -> Z) (B : extents) :
  extents_compatible Extents (static_extents B) = true ->
  (exists A,
     construct_from_extents enable_assertions T Extents cells B = Some (Ok A)
     /\ index_type A = T
     /\ static_extents A = Extents
     /\ forall r, r < m_rank Extents -> tag Extents r = dynamic_extent ->
          extent A r = static_cast T (extent B r))
  /\ (let A57 := Extents_ t_int [dynamic_extent; 7%Z] [5%Z] in
      extent A57 0 = 5%Z /\ extent A57 1 = 7%Z
      /\ exists B57,
           construct_from_extents enable_assertions t_int [5%Z; 7%Z] cells A57
           = Some (Ok B57)
           /\ extent B57 0 = 5%Z /\ extent B57 1 = 7%Z).
Proof.
  intros Hok. split.
  - unfold construct_from_extents. rewrite extents_from_extents_spec by assumption.
    eexists. split; [reflexivity |]. repeat split.
    intros r Hr Hdyn. now apply extent_of_stored.
  - cbv zeta. repeat split.
    unfold construct_from_extents. rewrite extents_from_extents_spec by reflexivity.
    eexists. split; [reflexivity |]. split; reflexivity.
Qed.

Lemma converting_constructor_copies_dynamic_witness :
  exists A,
    construct_from_extents true t_long_long [dynamic_extent; 7%Z] (fun _ => 0%Z)
      (Extents_ t_int [5%Z; dynamic_extent] [7%Z])
    = Some (Ok A)
    /\ index_type A = t_long_long
    /\ static_extents A = [dynamic_extent; 7%Z]
    /\ forall r, r < m_rank [dynamic_extent; 7%Z] ->
         tag [dynamic_extent; 7%Z] r = dynamic_extent ->
         extent A r
         = static_cast t_long_long
             (extent (Extents_ t_int [5%Z; dynamic_extent] [7%Z]) r).
Proof.
  apply (converting_constructor_copies_dynamic true t_long_long
           [dynamic_extent; 7%Z] (fun _ => 0%Z)
           (Extents_ t_int [5%Z; dynamic_extent] [7%Z])).
  reflexivity.
Defined.

(** ** The constructors from integral values in closed form *)

(** Exactly rank-dynamic values: they are stored, converted, in order. *)
Lemma extents_construct_dynamic_form enable_assertions T Extents cells form vals :
  length vals = m_rank_dynamic Extents ->
  extents_construct enable_assertions T Extents cells form vals
  = Some (Ok (Extents_ T Extents (map (static_cast T) vals))).
Proof.
  intros Hlen. unfold extents_construct, m_rank_dynamic in *.
  rewrite Hlen, Nat.eqb_refl, orb_true_r. cbn [negb].
  destruct (Nat.eqb_spec (m_size_dynamic Extents) 0) as [H0 | Hpos].
  - rewrite H0 in Hlen. apply nil_length_inv in Hlen. now subst vals.
  - destruct form; cbn [mbind result_bind]; unfold from_dyn_vals;
      rewrite ?from_dyn_sequence_spec by assumption;
      rewrite ?map_map, ?(map_ext _ _ (static_cast_idem T)); reflexivity.
Qed.

(** No dynamic dimension: whatever rank values are given, nothing is stored
    and nothing is compared. *)
Lemma extents_construct_fully_static enable_assertions T Extents cells form vals :
  m_rank_dynamic Extents = 0 ->
  length vals = m_rank Extents ->
  extents_construct enable_assertions T Extents cells form vals
  = Some (Ok (Extents_ T Extents [])).
Proof.
  intros H0 Hlen. unfold extents_construct, m_rank_dynamic in *.
  now rewrite Hlen, Nat.eqb_refl, H0.
Qed.

(** What the uninitialized storage held has no bearing on the outcome. *)
Lemma extents_construct_cells_irrelevant enable_assertions T Extents cells cells' form vals :
  extents_construct enable_assertions T Extents cells form vals
  = extents_construct enable_assertions T Extents cells' form vals.
Proof.
  destruct (Nat.eq_dec (length vals) (m_rank_dynamic Extents)) as [Hdyn | Hndyn].
  - now rewrite !extents_construct_dynamic_form.
  - destruct (Nat.eq_dec (length vals) (m_rank Extents)) as [Hall | Hnall].
    + destruct (Nat.eq_dec (m_rank_dynamic Extents) 0) as [H0 | Hpos].
      * now rewrite !extents_construct_fully_static.
      * rewrite !extents_construct_full_form by lia. reflexivity.
    + unfold extents_construct.
      destruct (Nat.eqb_spec (length vals) (m_rank Extents)); [contradiction |].
      destruct (Nat.eqb_spec (length vals) (m_rank_dynamic Extents)); [contradiction |].
      reflexivity.
Qed.

Lemma Forall_representable_map_static_cast T {A} (f : A -> Z) (l : list A) :
  Forall (representable T) (map (fun a => static_cast T (f a)) l).
Proof.
  apply Forall_forall. intros z Hz.
  apply list_elem_of_In, in_map_iff in Hz as (a & <- & _).
  apply static_cast_representable.
Qed.

(** Every constructor leaves a well-formed descriptor. *)
Lemma extents_default_well_formed T Extents init :
  Forall (representable size_t) Extents ->
  well_formed (extents_default T Extents init).
Proof.
  intros Htags. unfold well_formed, extents_default, rank_dynamic.
  cbn [m_vals index_type static_extents].
  split; [| split; [| assumption]]; destruct init as [| cells].
  - apply length_replicate.
  - apply length_uninitialized.
  - apply Forall_replicate, representable_0.
  - apply Forall_representable_uninitialized.
Qed.

Lemma extents_construct_well_formed enable_assertions T Extents cells form vals e :
  Forall (representable size_t) Extents ->
  extents_construct enable_assertions T Extents cells form vals = Some (Ok e) ->
  well_formed e.
Proof.
  intros Htags.
  destruct (Nat.eq_dec (length vals) (m_rank_dynamic Extents)) as [Hdyn | Hndyn].
  - rewrite extents_construct_dynamic_form by assumption. intros [= <-].
    unfold well_formed, rank_dynamic. cbn [m_vals index_type static_extents].
    rewrite length_map. repeat split; [assumption | | assumption].
    apply (Forall_representable_map_static_cast T id).
  - destruct (Nat.eq_dec (length vals) (m_rank Extents)) as [Hall | Hnall].
    + destruct (Nat.eq_dec (m_rank_dynamic Extents) 0) as [H0 | Hpos].
      * rewrite extents_construct_fully_static by assumption. intros [= <-].
        unfold well_formed, rank_dynamic. cbn [m_vals index_type static_extents].
        repeat split; [now rewrite H0 | constructor | assumption].
      * rewrite extents_construct_full_form by lia.
        destruct (enable_assertions && _); intros [= <-].
        unfold well_formed, rank_dynamic. cbn [m_vals index_type static_extents].
        rewrite length_map. repeat split; [| | assumption].
        -- apply length_dynamic_positions.
        -- apply Forall_representable_map_static_cast.
    + unfold extents_construct.
      destruct (Nat.eqb_spec (length vals) (m_rank Extents)); [contradiction |].
      destruct (Nat.eqb_spec (length vals) (m_rank_dynamic Extents)); [contradiction |].
      discriminate.
Qed.

Lemma extents_from_extents_well_formed T Extents cells other e :
  Forall (representable size_t) Extents ->
  extents_from_extents T Extents cells other = Some e ->
  well_formed e.
Proof.
  intros Htags. unfold extents_from_extents.
  destruct (extents_compatible Extents (static_extents other)) eqn:Hok; [| discriminate].
  pose proof (extents_from_extents_spec T Extents cells other Hok) as Hspec.
  unfold extents_from_extents in Hspec. rewrite Hok in Hspec. rewrite Hspec.
  intros [= <-].
  unfold well_formed, rank_dynamic. cbn [m_vals index_type static_extents].
  rewrite length_map. repeat split; [| | assumption].
  - apply length_dynamic_positions.
  - apply Forall_representable_map_static_cast.
Qed.

(** ** C9 *)

(** C9.  Given exactly rank-dynamic values, in any of the three forms and
    with assertions enabled or not, the construction returns a descriptor
    whose extents at the dynamic dimensions, read left to right, are the
    values in their order, each converted to the index type; nothing is
    compared.  And extents<int, 1, dynamic_extent, 3, dynamic_extent>(3, 4)
    has the extents 1, 3, 3, 4. *)
Theorem rank_dynamic_form_fills_dynamic_dimensions
    (enable_assertions : bool) (T : int_type) (Extents : list Z)
    (cells : nat -> Z) (form : ctor_form) (vals : list Z) :
  length vals = m_rank_dynamic Extents ->
  (exists e,
     extents_construct enable_assertions T Extents cells form vals = Some (Ok e)
     /\ index_type e = T
     /\ static_extents e = Extents
     /\ map (extent e) (dynamic_positions Extents) = map (static_cast T) vals)
  /\ exists e,
       extents_construct enable_assertions t_int
         [1%Z; dynamic_extent; 3%Z; dynamic_extent] cells Scalars [3%Z; 4%Z]
       = Some (Ok e)
       /\ map (extent e) [0; 1; 2; 3] = [1%Z; 3%Z; 3%Z; 4%Z].
Proof.
  intros Hlen. split.
  - exists (Extents_ T Extents (map (static_cast T) vals)).
    split; [now apply extents_construct_dynamic_form | repeat split].
    apply (extents_at_dynamic_positions (Extents_ T Extents (map (static_cast T) vals))).
    cbn [m_vals]. now rewrite length_map.
  - rewrite extents_construct_dynamic_form by reflexivity.
    eexists. split; reflexivity.
Qed.

Lemma rank_dynamic_form_fills_dynamic_dimensions_witness :
  exists e,
    extents_construct true t_char [dynamic_extent; 5%Z; dynamic_extent]
      (fun _ => 0%Z) Span [1000%Z; 2%Z]
    = Some (Ok e)
    /\ index_type e = t_char
    /\ static_extents e = [dynamic_extent; 5%Z; dynamic_extent]
    /\ map (extent e) (dynamic_positions [dynamic_extent; 5%Z; dynamic_extent])
       = map (static_cast t_char) [1000%Z; 2%Z].
Proof.
  apply (rank_dynamic_form_fills_dynamic_dimensions true t_char
           [dynamic_extent; 5%Z; dynamic_extent] (fun _ => 0%Z) Span [1000%Z; 2%Z]).
  reflexivity.
Defined.

(** ** C2 *)

Lemma existsb_false_intro {A} (p : A -> bool) (l : list A) :
  (forall a, In a l -> p a = false) -> existsb p l = false.
Proof.
  intros H. induction l as [| a l IH]; [reflexivity |].
  cbn. rewrite H by (left; reflexivity). apply IH.
  intros b Hb. apply H. now right.
Qed.

(** The values extent(0), ..., extent(rank-1) of a descriptor agree with
    its own static tags. *)
Lemma own_extents_match D :
  existsb (mismatch_at (index_type D) (static_extents D)
             (map (extent D) (seq 0 (rank D))))
          (seq 0 (m_rank (static_extents D)))
  = false.
Proof.
  apply existsb_false_intro. intros r Hr. apply in_seq in Hr.
  unfold mismatch_at.
  destruct (Z.eqb_spec (tag (static_extents D) r) dynamic_extent) as [Hdyn | Hstat];
    [reflexivity |].
  rewrite element_map_seq by (unfold rank; lia).
  rewrite extent_static by (assumption || (unfold rank; lia)).
  now rewrite static_cast_idem, Z.eqb_refl.
Qed.

Lemma extents_eq_refl D : well_formed D -> extents_eq D D = true.
Proof.
  intros Hwf. apply extents_eq_spec. intros r _.
  rewrite equal_to_same by now apply extent_representable.
  now apply bool_decide_eq_true_2.
Qed.

(** C2.  For every descriptor D, in any of the three forms and with
    assertions enabled or not, constructing a descriptor of D's type from
    extent(0), ..., extent(rank-1) of D returns a descriptor, which is D
    again and which operator== finds equal to D. *)
Theorem full_extent_list_round_trip
    (enable_assertions : bool) (cells : nat -> Z) (form : ctor_form) (D : extents) :
  well_formed D ->
  exists D',
    extents_construct enable_assertions (index_type D) (static_extents D) cells form
      (map (extent D) (seq 0 (rank D)))
    = Some (Ok D')
    /\ extents_eq D' D = true
    /\ D' = D.
Proof.
  intros Hwf. exists D. split; [| split; [now apply extents_eq_refl | reflexivity]].
  pose proof Hwf as (Hlen & Hrep & _).
  destruct D as [T Extents vals]. cbn [index_type static_extents m_vals] in *.
  unfold rank, rank_dynamic, m_rank_dynamic in *. cbn [static_extents] in *.
  set (D := Extents_ T Extents vals) in *.
  assert (Hcast : forall r, static_cast T (extent D r) = extent D r).
  { intros r. apply static_cast_id. now apply (extent_representable D). }
  assert (Hstored :
            map (fun r => static_cast T (element (map (extent D) (seq 0 (m_rank Extents))) r))
                (dynamic_positions Extents) = vals).
  { transitivity (map (extent D) (dynamic_positions Extents)).
    - apply map_ext_in. intros r Hr.
      apply list_elem_of_In, elem_of_dynamic_positions in Hr as [Hr _].
      now rewrite element_map_seq, Hcast.
    - now apply (extents_at_dynamic_positions D). }
  destruct (Nat.eq_dec (m_size_dynamic Extents) 0) as [H0 | Hpos].
  - unfold extents_construct. rewrite length_map, length_seq, Nat.eqb_refl.
    cbn [orb negb]. rewrite H0. cbn.
    rewrite H0 in Hlen. apply nil_length_inv in Hlen. subst vals. reflexivity.
  - destruct (Nat.eq_dec (m_rank Extents) (m_size_dynamic Extents)) as [Hall | Hmix].
    + unfold extents_construct. rewrite length_map, length_seq, Nat.eqb_refl.
      cbn [orb negb].
      destruct (Nat.eqb_spec (m_size_dynamic Extents) 0) as [| _]; [contradiction |].
      rewrite Hall, Nat.eqb_refl.
      assert (Hvals : map (extent D) (seq 0 (m_rank Extents)) = vals).
      { unfold m_rank. rewrite <- dynamic_positions_all by now symmetry.
        now apply (extents_at_dynamic_positions D). }
      rewrite <- Hall, Hvals.
      destruct form; cbn [mbind result_bind]; unfold from_dyn_vals;
        rewrite ?from_dyn_sequence_spec by lia;
        rewrite ?(map_static_cast_id T vals Hrep); reflexivity.
    + rewrite extents_construct_full_form;
        [| unfold m_rank_dynamic; lia | now rewrite length_map, length_seq | exact Hmix].
      assert (Hmatch :
                existsb (mismatch_at T Extents (map (extent D) (seq 0 (m_rank Extents))))
                        (seq 0 (m_rank Extents)) = false)
        by exact (own_extents_match D).
      rewrite Hmatch, andb_false_r, Hstored. reflexivity.
Qed.

Lemma full_extent_list_round_trip_witness :
  exists D',
    extents_construct true t_int [dynamic_extent; 7%Z] (fun _ => 0%Z) Array
      (map (extent (Extents_ t_int [dynamic_extent; 7%Z] [5%Z]))
           (seq 0 (rank (Extents_ t_int [dynamic_extent; 7%Z] [5%Z]))))
    = Some (Ok D')
    /\ extents_eq D' (Extents_ t_int [dynamic_extent; 7%Z] [5%Z]) = true
    /\ D' = Extents_ t_int [dynamic_extent; 7%Z] [5%Z].
Proof.
  apply (full_extent_list_round_trip true (fun _ => 0%Z) Array
           (Extents_ t_int [dynamic_extent; 7%Z] [5%Z])).
  unfold well_formed. cbn [m_vals index_type static_extents].
  split; [reflexivity |].
  split; repeat constructor; vm_compute; discriminate.
Defined.

(** ** The cases of the test suite *)

(** assert.ctor_from_integral: extents<int, D, 5>(1000, 5) is fine and
    extents<int, D, 5>(1000, 3) fails the assertion. *)
Example ctor_from_integral_working_case :
  extents_construct true t_int [dynamic_extent; 5%Z] (fun _ => 0%Z) Scalars [1000%Z; 5%Z]
  = Some (Ok (Extents_ t_int [dynamic_extent; 5%Z] [1000%Z])).
Proof. reflexivity. Qed.

Example ctor_from_integral_mismatch :
  extents_construct true t_int [dynamic_extent; 5%Z] (fun _ => 0%Z) Scalars [1000%Z; 3%Z]
  = Some (Abort mismatch_message)
  /\ extents_construct false t_int [dynamic_extent; 5%Z] (fun _ => 0%Z) Scalars [1000%Z; 3%Z]
     = Some (Ok (Extents_ t_int [dynamic_extent; 5%Z] [1000%Z])).
Proof. split; reflexivity. Qed.

(** cons.pass: extents<T, D, 2, 3, D, 5, D, 7, D, 9> from all nine values
    and from the four dynamic ones, in each form. *)
Example cons_pass_mixed_pack :
  let D := dynamic_extent in
  let Extents := [D; 2; 3; D; 5; D; 7; D; 9]%Z in
  let observed (r : option (result extents)) :=
    match r with
    | Some (Ok e) => map (extent e) (seq 0 (rank e))
    | _ => []
    end in
  Forall (fun form =>
            observed (extents_construct true t_int Extents (fun _ => 0%Z) form
                        [1; 2; 3; 4; 5; 6; 7; 8; 9]%Z)
            = [1; 2; 3; 4; 5; 6; 7; 8; 9]%Z
            /\ observed (extents_construct true t_int Extents (fun _ => 0%Z) form
                           [1; 4; 6; 8]%Z)
               = [1; 2; 3; 4; 5; 6; 7; 8; 9]%Z)
         [Scalars; Array; Span].
Proof. repeat constructor. Qed.

(** A count other than rank and rank-dynamic selects no constructor. *)
Example cons_fail_wrong_count :
  extents_construct true t_int [dynamic_extent; 5%Z] (fun _ => 0%Z) Array [1; 2; 3]%Z
  = None.
Proof. reflexivity. Qed.

(** Equality across index types, and across a static and a dynamic tag. *)
Example equality_cases :
  extents_eq (Extents_ t_int [dynamic_extent; 7%Z] [5%Z])
             (Extents_ t_unsigned [dynamic_extent; dynamic_extent] [5%Z; 7%Z])
  = true
  /\ extents_eq (extents_default t_int [5%Z] value_initialization)
                (Extents_ t_unsigned [dynamic_extent] [6%Z])
     = false.
Proof. split; reflexivity. Qed.

(** operator== of the header at hand compares in the common type of the
    two index types, the revised one in the left index type. *)
Example equality_without_cast :
  let lhs := Extents_ t_int [dynamic_extent] [5%Z] in
  let rhs := Extents_ t_long_long [dynamic_extent] [4294967301%Z] in
  extents_eq lhs rhs = false /\ extents_eq_revised lhs rhs = true.
Proof. split; reflexivity. Qed.

(** * Further properties of the header *)

(** ** Lookups in the packs *)

(** X1.  static_array::get never fails: it answers with the value at
    position min(r, size - 1), that is the r-th value below the size and
    the last value from the size on; on the empty pack it answers T(). *)
Theorem static_array_get_any_index (Values : list Z) (r : nat) :
  static_array_get Values r
  = default 0%Z (Values !! Nat.min r (length Values - 1)).
Proof.
  unfold static_array_get. rewrite static_array_impl_value_spec by lia.
  now rewrite Nat.sub_0_r.
Qed.


(** X3.  Two dimensions below the rank, the first of them dynamic, never
    share a slot of m_dyn_vals: dyn_map_t::get is strictly larger at the
    second. *)
Theorem dyn_map_separates_dynamic_dimensions (Extents : list Z) (r r' : nat) :
  r < r' ->
  r' < m_rank Extents ->
  static_value Extents r = dynamic_extent ->
  dyn_map_t_get Extents r < dyn_map_t_get Extents r'.
Proof.
  intros Hlt Hr' Hdyn. unfold m_rank, static_value in *.
  rewrite static_array_get_lt in Hdyn by lia.
  rewrite !dyn_map_t_get_lt by lia.
  apply dynamic_before_strict; (assumption || lia).
Qed.

Lemma dyn_map_separates_dynamic_dimensions_witness :
  dyn_map_t_get [dynamic_extent; 3%Z; dynamic_extent] 0
  < dyn_map_t_get [dynamic_extent; 3%Z; dynamic_extent] 2.
Proof.
  apply (dyn_map_separates_dynamic_dimensions [dynamic_extent; 3%Z; dynamic_extent] 0 2).
  - lia.
  - cbn. lia.
  - reflexivity.
Defined.

(** X4.  Whatever the index, in range or not, when the tag that
    static_value finds is dynamic the slot that value reads lies below
    m_size_dynamic: value never reads m_dyn_vals out of bounds. *)
Theorem value_slot_below_size_dynamic (Extents : list Z) (r : nat) :
  static_value Extents r = dynamic_extent ->
  dyn_map_t_get Extents r < m_size_dynamic Extents.
Proof. apply value_reads_in_bounds. Qed.

Lemma value_slot_below_size_dynamic_witness :
  dyn_map_t_get [5%Z; dynamic_extent] 7 < m_size_dynamic [5%Z; dynamic_extent].
Proof.
  apply (value_slot_below_size_dynamic [5%Z; dynamic_extent] 7). reflexivity.
Defined.

Lemma filter_ext_in {A} (P Q : A -> Prop)
    `{forall x, Decision (P x)} `{forall x, Decision (Q x)} (l : list A) :
  (forall x, In x l -> P x <-> Q x) -> filter P l = filter Q l.
Proof.
  induction l as [| x l IH]; intros Hl; [reflexivity |].
  rewrite !filter_cons, IH by (intros y Hy; apply Hl; now right).
  pose proof (Hl x (or_introl eq_refl)) as Hx.
  destruct (decide (P x)) as [HP | HP], (decide (Q x)) as [HQ | HQ];
    try reflexivity; tauto.
Qed.

(** X5.  rank_dynamic() is the number of dimensions r below rank() whose
    static_extent(r) is dynamic_extent, and it never exceeds rank(). *)
Theorem rank_dynamic_counts_dynamic_extents (e : extents) :
  rank_dynamic e
  = length (filter (fun r => static_extent e r = dynamic_extent) (seq 0 (rank e)))
  /\ rank_dynamic e <= rank e.
Proof.
  assert (Hfilter :
            filter (fun r => static_extent e r = dynamic_extent) (seq 0 (rank e))
            = dynamic_positions (static_extents e)).
  { apply filter_ext_in. intros r Hr. apply in_seq in Hr.
    unfold static_extent, static_value. rewrite static_array_get_lt by (unfold rank, m_rank in *; lia).
    reflexivity. }
  rewrite Hfilter. unfold rank_dynamic, m_rank_dynamic.
  rewrite <- length_dynamic_positions. split; [reflexivity |].
  unfold dynamic_positions, rank, m_rank.
  etransitivity; [apply length_filter |]. now rewrite length_seq.
Qed.

(** X6.  From the rank on, extent(r) does not fail: it is the extent of the
    last dimension, and zero on a descriptor of rank 0. *)
Theorem extent_from_rank_on (e : extents) (r : nat) :
  rank e <= r ->
  extent e r = if rank e =? 0 then 0%Z else extent e (rank e - 1).
Proof.
  intros Hr. unfold extent, value, rank, m_rank in *.
  destruct (static_extents e) as [| v Extents'] eqn:HE.
  - cbn [length Nat.eqb]. change (static_array_get [] r) with 0%Z.
    destruct (Z.eqb_spec 0 dynamic_extent) as [Heq | _]; [discriminate Heq |].
    apply static_cast_id, representable_0.
  - cbn [length Nat.eqb]. rewrite <- HE in *.
    assert (Hlen : length (static_extents e) = S (length Extents')) by now rewrite HE.
    rewrite Hlen in *. cbn [Nat.sub]. rewrite Nat.sub_0_r.
    rewrite (static_array_get_ge _ r), (static_array_get_lt _ (length Extents')) by lia.
    rewrite !dyn_map_t_get_spec, Hlen. cbn [Nat.sub]. rewrite Nat.sub_0_r.
    replace (Nat.min r (length Extents')) with (length Extents') by lia.
    now rewrite Nat.min_id.
Qed.

Lemma extent_from_rank_on_witness :
  extent (Extents_ t_int [5%Z; dynamic_extent] [9%Z]) 4
  = if rank (Extents_ t_int [5%Z; dynamic_extent] [9%Z]) =? 0 then 0%Z
    else extent (Extents_ t_int [5%Z; dynamic_extent] [9%Z])
           (rank (Extents_ t_int [5%Z; dynamic_extent] [9%Z]) - 1).
Proof.
  apply (extent_from_rank_on (Extents_ t_int [5%Z; dynamic_extent] [9%Z]) 4).
  cbn. lia.
Defined.

(** ** The constructors from integral values *)

(** The three outcomes, by the number of values. *)
Lemma extents_construct_cases enable_assertions T Extents cells form vals :
  (length vals = m_rank_dynamic Extents
   /\ extents_construct enable_assertions T Extents cells form vals
      = Some (Ok (Extents_ T Extents (map (static_cast T) vals))))
  \/ (length vals <> m_rank_dynamic Extents /\ length vals = m_rank Extents
      /\ m_rank_dynamic Extents = 0
      /\ extents_construct enable_assertions T Extents cells form vals
         = Some (Ok (Extents_ T Extents [])))
  \/ (length vals <> m_rank_dynamic Extents /\ length vals = m_rank Extents
      /\ 0 < m_rank_dynamic Extents
      /\ extents_construct enable_assertions T Extents cells form vals
         = Some (if enable_assertions
                    && existsb (mismatch_at T Extents vals) (seq 0 (m_rank Extents))
                 then Abort mismatch_message
                 else Ok (Extents_ T Extents
                            (map (fun r => static_cast T (element vals r))
                                 (dynamic_positions Extents)))))
  \/ (length vals <> m_rank_dynamic Extents /\ length vals <> m_rank Extents
      /\ extents_construct enable_assertions T Extents cells form vals = None).
Proof.
  destruct (Nat.eq_dec (length vals) (m_rank_dynamic Extents)) as [Hdyn | Hndyn].
  - left. split; [assumption |]. now apply extents_construct_dynamic_form.
  - right. destruct (Nat.eq_dec (length vals) (m_rank Extents)) as [Hall | Hnall].
    + destruct (Nat.eq_dec (m_rank_dynamic Extents) 0) as [H0 | Hpos].
      * left. repeat split; try assumption. now apply extents_construct_fully_static.
      * right. left. repeat split; try assumption; [lia |].
        apply extents_construct_full_form; lia.
    + right. right. repeat split; try assumption.
      unfold extents_construct.
      destruct (Nat.eqb_spec (length vals) (m_rank Extents)); [contradiction |].
      destruct (Nat.eqb_spec (length vals) (m_rank_dynamic Extents)); [contradiction |].
      reflexivity.
Qed.


(** X9.  The pack of scalars, the std::array and the std::span build the
    same descriptor, or fail alike, from the same values; what the storage
    held before the constructor ran plays no part. *)
Theorem extents_construct_form_irrelevant
    (enable_assertions : bool) (T : int_type) (Extents : list Z)
    (cells cells' : nat -> Z) (form form' : ctor_form) (vals : list Z) :
  extents_construct enable_assertions T Extents cells form vals
  = extents_construct enable_assertions T Extents cells' form' vals.
Proof.
  destruct (extents_construct_cases enable_assertions T Extents cells form vals)
    as [[Hlen ->] | [(Hn & Hlen & H0 & ->) | [(Hn & Hlen & Hpos & ->) | (Hn & Hlen & ->)]]];
  destruct (extents_construct_cases enable_assertions T Extents cells' form' vals)
    as [[Hlen' ->] | [(Hn' & Hlen' & H0' & ->) | [(Hn' & Hlen' & Hpos' & ->) | (Hn' & Hlen' & ->)]]];
  try reflexivity; lia.
Qed.

(** X10.  Whatever a construction from integral values returns is a
    descriptor of the requested type whose storage holds exactly
    rank-dynamic values, each representable in the index type. *)
Theorem extents_construct_returns_well_formed
    (enable_assertions : bool) (T : int_type) (Extents : list Z)
    (cells : nat -> Z) (form : ctor_form) (vals : list Z) (e : extents) :
  Forall (representable size_t) Extents ->
  extents_construct enable_assertions T Extents cells form vals = Some (Ok e) ->
  well_formed e /\ index_type e = T /\ static_extents e = Extents.
Proof.
  intros Htags He. split; [now apply (extents_construct_well_formed _ _ _ _ _ _ _ Htags He) |].
  destruct (extents_construct_cases enable_assertions T Extents cells form vals)
    as [[Hlen Heq] | [(Hn & Hlen & H0 & Heq) | [(Hn & Hlen & Hpos & Heq) | (Hn & Hlen & Heq)]]];
    rewrite Heq in He.
  - injection He as <-. split; reflexivity.
  - injection He as <-. split; reflexivity.
  - destruct (enable_assertions && _); [discriminate He |].
    injection He as <-. split; reflexivity.
  - discriminate He.
Qed.

Lemma extents_construct_returns_well_formed_witness :
  well_formed (Extents_ t_int [dynamic_extent; 5%Z] [1000%Z])
  /\ index_type (Extents_ t_int [dynamic_extent; 5%Z] [1000%Z]) = t_int
  /\ static_extents (Extents_ t_int [dynamic_extent; 5%Z] [1000%Z])
     = [dynamic_extent; 5%Z].
Proof.
  apply (extents_construct_returns_well_formed true t_int [dynamic_extent; 5%Z]
           (fun _ => 0%Z) Span [1000%Z; 5%Z]).
  - repeat constructor; vm_compute; discriminate.
  - reflexivity.
Defined.

Lemma tag_dynamic_of_all_dynamic Extents r :
  m_size_dynamic Extents = length Extents -> r < length Extents ->
  tag Extents r = dynamic_extent.
Proof.
  intros Hall Hr.
  assert (Hin : r ∈ dynamic_positions Extents).
  { rewrite dynamic_positions_all by assumption. apply elem_of_seq. lia. }
  now apply elem_of_dynamic_positions in Hin.
Qed.

(** With dynamic tags only, storing the values in order is storing each at
    its dimension. *)
Lemma stored_in_order_all_dynamic T Extents (vals : list Z) :
  m_size_dynamic Extents = length Extents ->
  length vals = length Extents ->
  map (static_cast T) vals
  = map (fun r => static_cast T (element vals r)) (dynamic_positions Extents).
Proof.
  intros Hall Hlen. rewrite dynamic_positions_all by assumption.
  rewrite <- Hlen, <- (map_map (element vals) (static_cast T)).
  now rewrite map_element_seq.
Qed.

(** X12.  Giving all rank values, when none of them fails the comparison
    with its static tag or when assertions are disabled, builds what giving
    only the values of the dynamic positions builds. *)
Theorem full_form_agrees_with_dynamic_form
    (enable_assertions : bool) (T : int_type) (Extents : list Z)
    (cells : nat -> Z) (form : ctor_form) (vals : list Z) :
  length vals = m_rank Extents ->
  enable_assertions = false
  \/ (forall r, r < m_rank Extents -> mismatch_at T Extents vals r = false) ->
  extents_construct enable_assertions T Extents cells form vals
  = extents_construct enable_assertions T Extents cells form
      (map (element vals) (dynamic_positions Extents)).
Proof.
  intros Hlen Hok.
  rewrite (extents_construct_dynamic_form _ _ _ _ _ (map (element vals) _))
    by (rewrite length_map; apply length_dynamic_positions).
  rewrite map_map.
  destruct (extents_construct_cases enable_assertions T Extents cells form vals)
    as [[Hdyn ->] | [(Hn & _ & H0 & ->) | [(Hn & _ & Hpos & ->) | (_ & Hnall & _)]]].
  - do 3 f_equal. apply stored_in_order_all_dynamic; unfold m_rank, m_rank_dynamic in *; lia.
  - do 3 f_equal. symmetry. apply nil_length_inv.
    rewrite length_map, length_dynamic_positions. exact H0.
  - replace (enable_assertions
             && existsb (mismatch_at T Extents vals) (seq 0 (m_rank Extents)))
      with false; [reflexivity |].
    destruct Hok as [-> | Hok]; [reflexivity |].
    rewrite existsb_false_intro; [now rewrite andb_false_r |].
    intros r Hr. apply in_seq in Hr. apply Hok. lia.
  - contradiction.
Qed.

Lemma full_form_agrees_with_dynamic_form_witness :
  extents_construct true t_int [3%Z; dynamic_extent; 9%Z] (fun _ => 0%Z) Array
    [3%Z; 7%Z; 9%Z]
  = extents_construct true t_int [3%Z; dynamic_extent; 9%Z] (fun _ => 0%Z) Array
      (map (element [3%Z; 7%Z; 9%Z]) (dynamic_positions [3%Z; dynamic_extent; 9%Z])).
Proof.
  apply (full_form_agrees_with_dynamic_form true t_int [3%Z; dynamic_extent; 9%Z]
           (fun _ => 0%Z) Array [3%Z; 7%Z; 9%Z]).
  - reflexivity.
  - right. intros r Hr.
    destruct r as [| [| [| r]]]; [reflexivity | reflexivity | reflexivity |].
    cbn in Hr. lia.
Defined.



(** ** operator== *)

Lemma common_type_comm A B : common_type A B = common_type B A.
Proof. destruct A as [[] []], B as [[] []]; reflexivity. Qed.

Lemma equal_to_sym A a B b : equal_to A a B b = equal_to B b A a.
Proof. unfold equal_to. rewrite (common_type_comm A B). apply Z.eqb_sym. Qed.

Lemma forallb_pointwise {A} (f g : A -> bool) (l : list A) :
  (forall a, f a = g a) -> forallb f l = forallb g l.
Proof.
  intros Hfg. induction l as [| a l IH]; [reflexivity |].
  cbn. now rewrite Hfg, IH.
Qed.

Lemma extents_eq_pointwise lhs rhs :
  index_type lhs = index_type rhs ->
  well_formed lhs -> well_formed rhs ->
  extents_eq lhs rhs = true
  <-> forall r, r < rank lhs -> extent lhs r = extent rhs r.
Proof.
  intros HT Hl Hr. rewrite extents_eq_spec.
  split; intros H r Hlt; specialize (H r Hlt).
  - rewrite <- HT, equal_to_same in H;
      [now apply bool_decide_eq_true_1 in H | now apply extent_representable |].
    rewrite HT. now apply extent_representable.
  - rewrite <- HT, equal_to_same;
      [now apply bool_decide_eq_true_2 | now apply extent_representable |].
    rewrite HT. now apply extent_representable.
Qed.

(** X14.  Between two descriptors of one index type, operator== holds
    exactly when the extents agree at every dimension below the left
    operand's rank. *)
Theorem extents_eq_same_index_type (lhs rhs : extents) :
  index_type lhs = index_type rhs ->
  well_formed lhs -> well_formed rhs ->
  extents_eq lhs rhs = true
  <-> forall r, r < rank lhs -> extent lhs r = extent rhs r.
Proof. apply extents_eq_pointwise. Qed.

Lemma extents_eq_same_index_type_witness :
  extents_eq (Extents_ t_int [dynamic_extent; 7%Z] [5%Z])
             (Extents_ t_int [5%Z; dynamic_extent] [7%Z]) = true
  <-> forall r, r < rank (Extents_ t_int [dynamic_extent; 7%Z] [5%Z]) ->
        extent (Extents_ t_int [dynamic_extent; 7%Z] [5%Z]) r
        = extent (Extents_ t_int [5%Z; dynamic_extent] [7%Z]) r.
Proof.
  apply (extents_eq_same_index_type (Extents_ t_int [dynamic_extent; 7%Z] [5%Z])
           (Extents_ t_int [5%Z; dynamic_extent] [7%Z])).
  - reflexivity.
  - unfold well_formed. cbn [m_vals index_type static_extents].
    split; [reflexivity |]. split; repeat constructor; vm_compute; discriminate.
  - unfold well_formed. cbn [m_vals index_type static_extents].
    split; [reflexivity |]. split; repeat constructor; vm_compute; discriminate.
Defined.

(** X15.  Two descriptors of the same type compare equal exactly when they
    are the same value: a descriptor has no identity beyond its stored
    extents. *)
Theorem extents_eq_same_type_is_identity (D1 D2 : extents) :
  index_type D1 = index_type D2 ->
  static_extents D1 = static_extents D2 ->
  well_formed D1 -> well_formed D2 ->
  extents_eq D1 D2 = true <-> D1 = D2.
Proof.
  intros HT HE H1 H2. split.
  - intros Heq'. pose proof (proj1 (extents_eq_pointwise D1 D2 HT H1 H2) Heq') as Heq.
    pose proof H1 as (Hlen1 & _). pose proof H2 as (Hlen2 & _).
    assert (Hvals : m_vals D1 = m_vals D2).
    { rewrite <- (extents_at_dynamic_positions D1), <- (extents_at_dynamic_positions D2)
        by assumption.
      rewrite <- HE. apply map_ext_in. intros r Hr.
      apply list_elem_of_In, elem_of_dynamic_positions in Hr as [Hr _].
      now apply Heq. }
    destruct D1, D2. cbn in *. now subst.
  - intros <-. now apply extents_eq_refl.
Qed.

Lemma extents_eq_same_type_is_identity_witness :
  extents_eq (Extents_ t_int [dynamic_extent; 7%Z] [5%Z])
             (Extents_ t_int [dynamic_extent; 7%Z] [6%Z]) = true
  <-> Extents_ t_int [dynamic_extent; 7%Z] [5%Z]
      = Extents_ t_int [dynamic_extent; 7%Z] [6%Z].
Proof.
  apply (extents_eq_same_type_is_identity (Extents_ t_int [dynamic_extent; 7%Z] [5%Z])
           (Extents_ t_int [dynamic_extent; 7%Z] [6%Z])).
  - reflexivity.
  - reflexivity.
  - unfold well_formed. cbn [m_vals index_type static_extents].
    split; [reflexivity |]. split; repeat constructor; vm_compute; discriminate.
  - unfold well_formed. cbn [m_vals index_type static_extents].
    split; [reflexivity |]. split; repeat constructor; vm_compute; discriminate.
Defined.

(** X16.  Between descriptors of equal rank, whatever their index types,
    operator== gives the same answer with the operands exchanged.  Across
    ranks it need not: extents<int, 5> == extents<int, 5, 7> is true and
    extents<int, 5, 7> == extents<int, 5> is false. *)
Theorem extents_eq_symmetric_at_equal_rank (lhs rhs : extents) :
  rank lhs = rank rhs ->
  extents_eq lhs rhs = extents_eq rhs lhs
  /\ extents_eq (Extents_ t_int [5%Z] []) (Extents_ t_int [5%Z; 7%Z] [])
     <> extents_eq (Extents_ t_int [5%Z; 7%Z] []) (Extents_ t_int [5%Z] []).
Proof.
  intros Hrank. split; [| discriminate].
  unfold extents_eq. rewrite !foldl_andb, Hrank. f_equal.
  apply forallb_pointwise. intros r. apply equal_to_sym.
Qed.

Lemma extents_eq_symmetric_at_equal_rank_witness :
  extents_eq (Extents_ t_int [dynamic_extent] [5%Z]) (Extents_ t_long_long [5%Z] [])
  = extents_eq (Extents_ t_long_long [5%Z] []) (Extents_ t_int [dynamic_extent] [5%Z]).
Proof.
  apply (extents_eq_symmetric_at_equal_rank
           (Extents_ t_int [dynamic_extent] [5%Z]) (Extents_ t_long_long [5%Z] [])).
  reflexivity.
Defined.

(** X26.  On well-formed descriptors of one index type and equal rank, the
    operator== of the later revisions and the one of the header at hand
    give the same answer. *)
Theorem extents_eq_revisions_agree (lhs rhs : extents) :
  index_type lhs = index_type rhs ->
  rank lhs = rank rhs ->
  well_formed lhs -> well_formed rhs ->
  extents_eq_revised lhs rhs = extents_eq lhs rhs.
Proof.
  intros HT Hrank Hl Hr. unfold extents_eq_revised, extents_eq.
  rewrite Hrank, Nat.eqb_refl. cbn [negb]. rewrite !foldl_andb. f_equal.
  apply forallb_pointwise. intros r.
  rewrite HT at 2. rewrite equal_to_same by now apply extent_representable || (rewrite <- HT; now apply extent_representable).
  rewrite HT, static_cast_id by now apply extent_representable.
  destruct (Z.eqb_spec (extent rhs r) (extent lhs r)) as [Heq | Hne].
  - symmetry. now apply bool_decide_eq_true_2.
  - symmetry. apply bool_decide_eq_false_2. congruence.
Qed.

Lemma extents_eq_revisions_agree_witness :
  extents_eq_revised (Extents_ t_int [dynamic_extent; 7%Z] [5%Z])
                     (Extents_ t_int [5%Z; dynamic_extent] [7%Z])
  = extents_eq (Extents_ t_int [dynamic_extent; 7%Z] [5%Z])
               (Extents_ t_int [5%Z; dynamic_extent] [7%Z]).
Proof.
  apply (extents_eq_revisions_agree (Extents_ t_int [dynamic_extent; 7%Z] [5%Z])
           (Extents_ t_int [5%Z; dynamic_extent] [7%Z])).
  - reflexivity.
  - reflexivity.
  - unfold well_formed. cbn [m_vals index_type static_extents].
    split; [reflexivity |]. split; repeat constructor; vm_compute; discriminate.
  - unfold well_formed. cbn [m_vals index_type static_extents].
    split; [reflexivity |]. split; repeat constructor; vm_compute; discriminate.
Defined.

(** ** The converting constructor *)

Lemma extents_compatible_refl Extents : extents_compatible Extents Extents = true.
Proof.
  induction Extents as [| Ext Extents IH]; [reflexivity |].
  cbn. now rewrite Z.eqb_refl, orb_true_r, IH.
Qed.

Lemma extents_compatible_sym Extents : forall OtherExtents,
  extents_compatible Extents OtherExtents = extents_compatible OtherExtents Extents.
Proof.
  induction Extents as [| Ext Extents IH]; intros [| Other OtherExtents]; try reflexivity.
  cbn. rewrite IH, (Z.eqb_sym Other Ext). f_equal.
  destruct (Other =? dynamic_extent)%Z, (Ext =? dynamic_extent)%Z; reflexivity.
Qed.

Lemma extents_compatible_length Extents : forall OtherExtents,
  extents_compatible Extents OtherExtents = true -> length Extents = length OtherExtents.
Proof.
  induction Extents as [| Ext Extents IH]; intros [| Other OtherExtents] H;
    try reflexivity; try discriminate H.
  cbn in H. apply andb_true_iff in H as [_ H]. cbn. f_equal. now apply IH.
Qed.

(** X24.  The requires-clause of the converting constructor is symmetric
    and forces equal ranks: when B converts to A's type, A converts to B's
    and the two packs have the same length. *)
Theorem extents_compatible_symmetric (Extents OtherExtents : list Z) :
  extents_compatible Extents OtherExtents = true ->
  extents_compatible OtherExtents Extents = true
  /\ m_rank Extents = m_rank OtherExtents.
Proof.
  intros H. split.
  - now rewrite extents_compatible_sym.
  - now apply extents_compatible_length.
Qed.

Lemma extents_compatible_symmetric_witness :
  extents_compatible [5%Z; dynamic_extent] [dynamic_extent; 7%Z] = true
  /\ m_rank [dynamic_extent; 7%Z] = m_rank [5%Z; dynamic_extent].
Proof.
  apply (extents_compatible_symmetric [dynamic_extent; 7%Z] [5%Z; dynamic_extent]).
  reflexivity.
Defined.

(** X17.  Converting a descriptor to its own type copies it. *)
Theorem extents_from_extents_same_type (cells : nat -> Z) (D : extents) :
  well_formed D ->
  extents_from_extents (index_type D) (static_extents D) cells D = Some D.
Proof.
  intros Hwf. rewrite extents_from_extents_spec by apply extents_compatible_refl.
  pose proof Hwf as (Hlen & Hrep & _). f_equal.
  rewrite <- (map_map (extent D) (static_cast (index_type D))).
  rewrite extents_at_dynamic_positions, map_static_cast_id by assumption.
  now destruct D.
Qed.

Lemma extents_from_extents_same_type_witness :
  extents_from_extents t_int [dynamic_extent; 7%Z] (fun _ => 3%Z)
    (Extents_ t_int [dynamic_extent; 7%Z] [5%Z])
  = Some (Extents_ t_int [dynamic_extent; 7%Z] [5%Z]).
Proof.
  apply (extents_from_extents_same_type (fun _ => 3%Z)
           (Extents_ t_int [dynamic_extent; 7%Z] [5%Z])).
  unfold well_formed. cbn [m_vals index_type static_extents].
  split; [reflexivity |]. split; repeat constructor; vm_compute; discriminate.
Defined.

(** X18.  A conversion that loses nothing keeps every extent: when the
    source's extent is representable in the destination index type at the
    dimensions the destination stores, and is the destination's tag at the
    dimensions it fixes, the new descriptor has the source's extent at every
    dimension and operator== finds the two equal. *)
Theorem conversion_keeps_extents
    (T : int_type) (Extents : list Z) (cells : nat -> Z) (B : extents) :
  extents_compatible Extents (static_extents B) = true ->
  (forall r, r < m_rank Extents -> tag Extents r = dynamic_extent ->
     representable T (extent B r)) ->
  (forall r, r < m_rank Extents -> tag Extents r <> dynamic_extent ->
     extent B r = static_cast T (tag Extents r)) ->
  exists A,
    extents_from_extents T Extents cells B = Some A
    /\ (forall r, r < m_rank Extents -> extent A r = extent B r)
    /\ extents_eq A B = true.
Proof.
  intros Hok Hdyn Hstat. rewrite extents_from_extents_spec by assumption.
  eexists. split; [reflexivity |].
  assert (Hext : forall r, r < m_rank Extents ->
            extent (Extents_ T Extents
                      (map (fun r => static_cast T (extent B r)) (dynamic_positions Extents))) r
            = extent B r).
  { intros r Hr. destruct (Z.eq_dec (tag Extents r) dynamic_extent) as [Hd | Hs].
    - rewrite (extent_of_stored T Extents (fun r => static_cast T (extent B r)))
        by assumption.
      apply static_cast_id. now apply Hdyn.
    - rewrite extent_static by assumption. cbn [index_type static_extents].
      symmetry. now apply Hstat. }
  split; [exact Hext |].
  apply extents_eq_spec. intros r Hr. rewrite Hext by exact Hr.
  unfold equal_to. apply Z.eqb_refl.
Qed.

Lemma conversion_keeps_extents_witness :
  exists A,
    extents_from_extents t_long_long [dynamic_extent; 7%Z] (fun _ => 0%Z)
      (Extents_ t_int [5%Z; dynamic_extent] [7%Z])
    = Some A
    /\ (forall r, r < m_rank [dynamic_extent; 7%Z] ->
          extent A r = extent (Extents_ t_int [5%Z; dynamic_extent] [7%Z]) r)
    /\ extents_eq A (Extents_ t_int [5%Z; dynamic_extent] [7%Z]) = true.
Proof.
  apply (conversion_keeps_extents t_long_long [dynamic_extent; 7%Z] (fun _ => 0%Z)
           (Extents_ t_int [5%Z; dynamic_extent] [7%Z])).
  - reflexivity.
  - intros r Hr _. destruct r as [| [| r]];
      [vm_compute; split; discriminate | vm_compute; split; discriminate |].
    cbn in Hr. lia.
  - intros r Hr Hstat. destruct r as [| [| r]].
    + exfalso. apply Hstat. reflexivity.
    + reflexivity.
    + cbn in Hr. lia.
Defined.

(** The recursion of the later revisions, from dimension Idx on. *)
Lemma construct_vals_from_extents_spec T Extents exts : forall steps Idx dynamic_values,
  Idx + steps = m_rank Extents ->
  construct_vals_from_extents T Extents exts steps
    (dynamic_before Extents Idx) Idx dynamic_values
  = Some (map (static_cast T)
            (dynamic_values
             ++ map (extent exts)
                  (filter (fun r => tag Extents r = dynamic_extent) (seq Idx steps)))).
Proof.
  induction steps as [| steps IH]; intros Idx dynamic_values Hsum.
  - cbn [construct_vals_from_extents].
    destruct (Nat.ltb_spec Idx (m_rank Extents)); [lia |].
    replace Idx with (m_rank Extents) by lia.
    rewrite Nat.eqb_refl. unfold m_rank, m_rank_dynamic.
    rewrite <- m_size_dynamic_spec, Nat.eqb_refl. cbn [andb seq filter map].
    unfold from_dyn_vals. rewrite map_map, app_nil_r.
    f_equal. apply map_ext. intros z. apply static_cast_idem.
  - cbn [construct_vals_from_extents].
    destruct (Nat.ltb_spec Idx (m_rank Extents)); [| lia].
    unfold static_value. rewrite static_array_get_lt by (unfold m_rank in *; lia).
    cbn [seq]. rewrite filter_cons.
    destruct (Z.eqb_spec (tag Extents Idx) dynamic_extent) as [Hdyn | Hstat].
    + rewrite decide_True by assumption.
      replace (S (dynamic_before Extents Idx)) with (dynamic_before Extents (S Idx))
        by (rewrite dynamic_before_S, decide_True by (assumption || (unfold m_rank in *; lia)); lia).
      rewrite IH by lia. cbn [map]. now rewrite <- app_assoc.
    + rewrite decide_False by assumption.
      replace (dynamic_before Extents Idx) with (dynamic_before Extents (S Idx))
        by (rewrite dynamic_before_S, decide_False by (assumption || (unfold m_rank in *; lia)); lia).
      now rewrite IH by lia.
Qed.

(** X25.  The converting constructor of the later revisions, which gathers
    the dynamic extents by recursion over the dimension, builds the same
    descriptor as the loop of the header at hand, and is viable for the
    same sources. *)
Theorem extents_from_extents_revisions_agree
    (T : int_type) (Extents : list Z) (cells : nat -> Z) (other : extents) :
  extents_from_extents_revised T Extents other
  = extents_from_extents T Extents cells other.
Proof.
  unfold extents_from_extents_revised.
  destruct (extents_compatible Extents (static_extents other)) eqn:Hok.
  - rewrite extents_from_extents_spec by assumption.
    pose proof (construct_vals_from_extents_spec T Extents other
                  (m_rank Extents) 0 [] eq_refl) as Hrec.
    change (dynamic_before Extents 0) with 0 in Hrec. rewrite Hrec.
    cbn [fmap option_fmap option_map app]. rewrite map_map. reflexivity.
  - unfold extents_from_extents. now rewrite Hok.
Qed.

(** ** Implicit and explicit conversions *)

Lemma less_than_max A B :
  less_than A (numeric_limits_max A) B (numeric_limits_max B)
  = (numeric_limits_max A <? numeric_limits_max B)%Z.
Proof. destruct A as [[] []], B as [[] []]; vm_compute; reflexivity. Qed.


Lemma staticizes_refl Extents : staticizes Extents Extents = false.
Proof.
  induction Extents as [| Ext Extents IH]; [reflexivity |].
  cbn. rewrite IH. now destruct (Ext =? dynamic_extent)%Z.
Qed.


(** X21.  Converting a descriptor to its own type is always viable and
    never explicit. *)
Theorem conversion_to_same_type_is_implicit (T : int_type) (Extents : list Z) :
  extents_compatible Extents Extents = true
  /\ conversion_explicit T Extents T Extents = false.
Proof.
  split; [apply extents_compatible_refl |].
  unfold conversion_explicit.
  rewrite staticizes_refl, less_than_max. apply Z.ltb_irrefl.
Qed.



(** ** dextents *)

Lemma make_dextents_spec Rank : forall ExtentsPack,
  make_dextents Rank ExtentsPack = replicate Rank dynamic_extent ++ ExtentsPack.
Proof.
  induction Rank as [| Rank IH]; intros ExtentsPack; [reflexivity |].
  cbn [make_dextents]. rewrite IH, replicate_S_end, <- app_assoc. reflexivity.
Qed.

Lemma dextents_replicate Rank : dextents Rank = replicate Rank dynamic_extent.
Proof. unfold dextents. now rewrite make_dextents_spec, app_nil_r. Qed.

Lemma m_size_dynamic_replicate n : m_size_dynamic (replicate n dynamic_extent) = n.
Proof.
  induction n as [| n IH]; [reflexivity |].
  cbn [replicate]. unfold m_size_dynamic in *. cbn [foldr]. rewrite IH.
  unfold is_dyn_tag. now rewrite Z.eqb_refl.
Qed.

(** X19.  dextents<IndexType, Rank> is the descriptor type with Rank
    dynamic tags: its rank and its rank-dynamic are both Rank. *)
Theorem dextents_all_dynamic (Rank : nat) :
  dextents Rank = replicate Rank dynamic_extent
  /\ m_rank (dextents Rank) = Rank
  /\ m_rank_dynamic (dextents Rank) = Rank.
Proof.
  rewrite dextents_replicate. unfold m_rank, m_rank_dynamic.
  repeat split; [apply length_replicate | apply m_size_dynamic_replicate].
Qed.

(** X20.  A dextents<IndexType, Rank> built from Rank values, in any form
    and in either build, holds at every dimension the value given for it,
    converted to the index type; the construction never aborts. *)
Theorem dextents_construct
    (enable_assertions : bool) (T : int_type) (Rank : nat)
    (cells : nat -> Z) (form : ctor_form) (vals : list Z) :
  length vals = Rank ->
  exists e,
    extents_construct enable_assertions T (dextents Rank) cells form vals = Some (Ok e)
    /\ forall r, r < Rank -> extent e r = static_cast T (element vals r).
Proof.
  intros Hlen. rewrite dextents_replicate.
  set (Extents := replicate Rank dynamic_extent).
  assert (Hall : m_size_dynamic Extents = length Extents)
    by (unfold Extents; now rewrite m_size_dynamic_replicate, length_replicate).
  assert (HlenE : length Extents = Rank) by apply length_replicate.
  rewrite extents_construct_dynamic_form
    by (unfold m_rank_dynamic; lia).
  eexists. split; [reflexivity |]. intros r Hr.
  rewrite (stored_in_order_all_dynamic T Extents vals) by lia.
  apply (extent_of_stored T Extents (fun r => static_cast T (element vals r))).
  - unfold m_rank. lia.
  - apply tag_dynamic_of_all_dynamic; lia.
Qed.

Lemma dextents_construct_witness :
  exists e,
    extents_construct true t_unsigned_char (dextents 2) (fun _ => 0%Z) Scalars
      [3%Z; 300%Z]
    = Some (Ok e)
    /\ forall r, r < 2 ->
         extent e r = static_cast t_unsigned_char (element [3%Z; 300%Z] r).
Proof.
  apply (dextents_construct true t_unsigned_char 2 (fun _ => 0%Z) Scalars [3%Z; 300%Z]).
  reflexivity.
Defined.

Lemma staticizes_all_dynamic n : forall OtherExtents,
  staticizes (replicate n dynamic_extent) OtherExtents = false.
Proof.
  induction n as [| n IH]; intros [| Other OtherExtents]; try reflexivity.
  cbn. now rewrite Z.eqb_refl, IH.
Qed.

Lemma extents_compatible_all_dynamic OtherExtents :
  extents_compatible (replicate (length OtherExtents) dynamic_extent) OtherExtents = true.
Proof.
  induction OtherExtents as [| Other OtherExtents IH]; [reflexivity |].
  cbn. now rewrite Z.eqb_refl, orb_true_r, IH.
Qed.

(** X23.  Every descriptor converts to the dextents of its rank, and the
    conversion is implicit as soon as the destination index type's maximum
    is not below the source's. *)
Theorem conversion_to_dextents_is_implicit
    (T T' : int_type) (OtherExtents : list Z) :
  (numeric_limits_max T' <= numeric_limits_max T)%Z ->
  extents_compatible (dextents (m_rank OtherExtents)) OtherExtents = true
  /\ conversion_explicit T (dextents (m_rank OtherExtents)) T' OtherExtents = false.
Proof.
  intros Hmax. rewrite dextents_replicate. unfold m_rank. split.
  - apply extents_compatible_all_dynamic.
  - unfold conversion_explicit.
    rewrite staticizes_all_dynamic, less_than_max. apply Z.ltb_ge. exact Hmax.
Qed.

Lemma conversion_to_dextents_is_implicit_witness :
  extents_compatible (dextents (m_rank [5%Z; dynamic_extent])) [5%Z; dynamic_extent] = true
  /\ conversion_explicit t_long_long (dextents (m_rank [5%Z; dynamic_extent]))
       t_int [5%Z; dynamic_extent] = false.
Proof.
  apply (conversion_to_dextents_is_implicit t_long_long t_int [5%Z; dynamic_extent]).
  vm_compute. discriminate.
Defined.

(** ** The default constructor *)

(** X27.  At a dimension below the rank, a value-initialized descriptor has
    zero where the tag is dynamic and the tag, as an index_type, elsewhere;
    a default-initialized one has the same static extents and, at a dynamic
    dimension, the content of its slot of the uninitialized storage. *)
Theorem extents_default_extents
    (T : int_type) (Extents : list Z) (cells : nat -> Z) (r : nat) :
  r < m_rank Extents ->
  extent (extents_default T Extents value_initialization) r
  = (if decide (tag Extents r = dynamic_extent) then 0%Z
     else static_cast T (tag Extents r))
  /\ extent (extents_default T Extents (default_initialization cells)) r
     = (if decide (tag Extents r = dynamic_extent)
        then static_cast T (cells (dynamic_before Extents r))
        else static_cast T (tag Extents r)).
Proof.
  intros Hr. split.
  - now apply extents_default_value_initialized.
  - now apply extents_default_default_initialized.
Qed.

Lemma extents_default_extents_witness :
  extent (extents_default t_int [dynamic_extent; 5%Z] value_initialization) 1
  = (if decide (tag [dynamic_extent; 5%Z] 1 = dynamic_extent) then 0%Z
     else static_cast t_int (tag [dynamic_extent; 5%Z] 1))
  /\ extent (extents_default t_int [dynamic_extent; 5%Z]
               (default_initialization (fun _ => 7%Z))) 1
     = (if decide (tag [dynamic_extent; 5%Z] 1 = dynamic_extent)
        then static_cast t_int ((fun _ : nat => 7%Z) (dynamic_before [dynamic_extent; 5%Z] 1))
        else static_cast t_int (tag [dynamic_extent; 5%Z] 1)).
Proof.
  apply (extents_default_extents t_int [dynamic_extent; 5%Z] (fun _ => 7%Z) 1).
  cbn. lia.
Defined.

Lemma static_cast_0 T : static_cast T 0 = 0%Z.
Proof. apply static_cast_id, representable_0. Qed.

(** X28.  A value-initialized descriptor is the descriptor built from
    rank-dynamic zeros, in any form and in either build. *)
Theorem value_initialized_is_constructed_from_zeros
    (enable_assertions : bool) (T : int_type) (Extents : list Z)
    (cells : nat -> Z) (form : ctor_form) :
  extents_construct enable_assertions T Extents cells form
    (replicate (m_rank_dynamic Extents) 0%Z)
  = Some (Ok (extents_default T Extents value_initialization)).
Proof.
  rewrite extents_construct_dynamic_form by apply length_replicate.
  unfold extents_default. do 3 f_equal.
  induction (m_rank_dynamic Extents) as [| n IH]; [reflexivity |].
  cbn [replicate map]. now rewrite static_cast_0, IH.
Qed.

(** ** Round trip through the dynamic extents *)

(** X8.  Building a descriptor of D's type from the extents of D at its
    dynamic dimensions, left to right, gives D back, in any form and in
    either build. *)
Theorem dynamic_extent_list_round_trip
    (enable_assertions : bool) (cells : nat -> Z) (form : ctor_form) (D : extents) :
  well_formed D ->
  extents_construct enable_assertions (index_type D) (static_extents D) cells form
    (map (extent D) (dynamic_positions (static_extents D)))
  = Some (Ok D).
Proof.
  intros (Hlen & Hrep & _).
  rewrite extents_at_dynamic_positions by assumption.
  rewrite extents_construct_dynamic_form by exact Hlen.
  rewrite map_static_cast_id by assumption. now destruct D.
Qed.

Lemma dynamic_extent_list_round_trip_witness :
  extents_construct true t_int [dynamic_extent; 7%Z; dynamic_extent] (fun _ => 0%Z) Span
    (map (extent (Extents_ t_int [dynamic_extent; 7%Z; dynamic_extent] [5%Z; 9%Z]))
         (dynamic_positions [dynamic_extent; 7%Z; dynamic_extent]))
  = Some (Ok (Extents_ t_int [dynamic_extent; 7%Z; dynamic_extent] [5%Z; 9%Z])).
Proof.
  apply (dynamic_extent_list_round_trip true (fun _ => 0%Z) Span
           (Extents_ t_int [dynamic_extent; 7%Z; dynamic_extent] [5%Z; 9%Z])).
  unfold well_formed. cbn [m_vals index_type static_extents].
  split; [reflexivity |]. split; repeat constructor; vm_compute; discriminate.
Defined.

(** X11.  Whatever the converting constructor returns is a descriptor of
    the destination type whose storage holds exactly rank-dynamic values,
    each representable in the destination index type, whatever the source
    held. *)
Theorem extents_from_extents_returns_well_formed
    (T : int_type) (Extents : list Z) (cells : nat -> Z) (other A : extents) :
  Forall (representable size_t) Extents ->
  extents_from_extents T Extents cells other = Some A ->
  well_formed A /\ index_type A = T /\ static_extents A = Extents.
Proof.
  intros Htags HA. split; [now apply (extents_from_extents_well_formed _ _ _ _ _ Htags HA) |].
  unfold extents_from_extents in HA.
  destruct (extents_compatible Extents (static_extents other)); [| discriminate HA].
  injection HA as <-. split; reflexivity.
Qed.

Lemma extents_from_extents_returns_well_formed_witness :
  well_formed (Extents_ t_char [dynamic_extent; 7%Z] [static_cast t_char 1000])
  /\ index_type (Extents_ t_char [dynamic_extent; 7%Z] [static_cast t_char 1000]) = t_char
  /\ static_extents (Extents_ t_char [dynamic_extent; 7%Z] [static_cast t_char 1000])
     = [dynamic_extent; 7%Z].
Proof.
  apply (extents_from_extents_returns_well_formed t_char [dynamic_extent; 7%Z]
           (fun _ => 0%Z) (Extents_ t_int [dynamic_extent; dynamic_extent] [1000%Z; 7%Z])).
  - repeat constructor; vm_compute; discriminate.
  - reflexivity.
Defined.
